(** * bambi: post-processing of sampler results (bambi/results.py)

    A shallow embedding of [PyMC3Results] -- the name filter, the
    regex-driven decoder of parameter names, [summary], [plot] and
    [get_trace] -- and of
    the parts of the model builder (bambi/models.py) that the specification
    describes, together with the properties the specification states about
    them.

    Python strings are [string]s over 8-bit characters; a [dict] whose
    insertion order is observable is an association list; a Python exception
    is the [Raise] case of [outcome]; [warnings.warn] appends to a log. *)

From Stdlib Require Import String Ascii List Bool Arith Lia Permutation.
From Stdlib Require Import Floats.
Import ListNotations.

#[local] Open Scope list_scope.
#[local] Open Scope string_scope.

(** ** Python values: exceptions, results, string primitives *)

Module Py.

Inductive exn : Set :=
| KeyError | IndexError | TypeError | ValueError | StopIteration
| AttributeError | BackendError.

Inductive outcome (A : Type) : Type :=
| Ok (a : A)
| Raise (e : exn).
Arguments Ok {A} a.
Arguments Raise {A} e.

Definition bind {A B} (x : outcome A) (f : A -> outcome B) : outcome B :=
  match x with
  | Ok a => f a
  | Raise e => Raise e
  end.

(** [o[key]] on a value that may be [None]: subscripting [None] is a
    [TypeError]. *)
Definition subscriptable {A} (o : option A) : outcome A :=
  match o with
  | Some a => Ok a
  | None => Raise TypeError
  end.

(** [s[n:]] *)
Fixpoint drop (n : nat) (s : string) : string :=
  match n, s with
  | O, _ => s
  | S _, EmptyString => EmptyString
  | S n', String _ s' => drop n' s'
  end.

(** [s[:n]] *)
Fixpoint take (n : nat) (s : string) : string :=
  match n, s with
  | O, _ => EmptyString
  | S _, EmptyString => EmptyString
  | S n', String c s' => String c (take n' s')
  end.

(** [all(p(c) for c in s)] *)
Fixpoint forall_chars (p : ascii -> bool) (s : string) : bool :=
  match s with
  | EmptyString => true
  | String c s' => p c && forall_chars p s'
  end.

(** [s.endswith(t)] *)
Fixpoint endswith (s t : string) : bool :=
  (s =? t) ||
  match s with
  | EmptyString => false
  | String _ s' => endswith s' t
  end.

(** [s.startswith(p)], returning the rest of [s] *)
Fixpoint strip_prefix (p s : string) : option string :=
  match p, s with
  | EmptyString, _ => Some s
  | String a p', String b s' =>
      if Ascii.eqb a b then strip_prefix p' s' else None
  | String _ _, EmptyString => None
  end.

Definition startswith (s p : string) : bool :=
  match strip_prefix p s with Some _ => true | None => false end.

(** [t in x] for two strings: [t] occurs in [x] as a substring. *)
Fixpoint contains (x t : string) : bool :=
  startswith x t ||
  match x with
  | EmptyString => false
  | String _ x' => contains x' t
  end.

Definition is_digit (c : ascii) : bool :=
  ((48 <=? nat_of_ascii c) && (nat_of_ascii c <=? 57))%nat.

(** [int(s)] for a string of decimal digits; anything else is a
    [ValueError]. *)
Fixpoint int_digits (acc : nat) (s : string) : outcome nat :=
  match s with
  | EmptyString => Ok acc
  | String c s' =>
      if is_digit c then int_digits (10 * acc + (nat_of_ascii c - 48)) s'
      else Raise ValueError
  end.

Definition int (s : string) : outcome nat :=
  match s with
  | EmptyString => Raise ValueError
  | _ => int_digits 0 s
  end.

(** [str(n)] for a non-negative integer *)
Definition digit_char (d : nat) : ascii := ascii_of_nat (48 + d).

Fixpoint str_nat_aux (fuel n : nat) (acc : string) : string :=
  match fuel with
  | O => acc
  | S fuel' =>
      let acc' := String (digit_char (n mod 10)) acc in
      match n / 10 with
      | O => acc'
      | q => str_nat_aux fuel' q acc'
      end
  end.

Definition str_nat (n : nat) : string := str_nat_aux (S n) n EmptyString.

(** [l[i]] on a list *)
Definition getitem {A} (l : list A) (i : nat) : outcome A :=
  match nth_error l i with
  | Some a => Ok a
  | None => Raise IndexError
  end.

(** [d[k]] on a dict with string keys *)
Fixpoint assoc {A} (d : list (string * A)) (k : string) : option A :=
  match d with
  | [] => None
  | (k', v) :: d' => if String.eqb k k' then Some v else assoc d' k
  end.

Definition dict_getitem {A} (d : list (string * A)) (k : string) : outcome A :=
  match assoc d k with
  | Some a => Ok a
  | None => Raise KeyError
  end.

(** ['{}'.format(x)] where [x] is a string or [None] *)
Definition fmt (o : option string) : string :=
  match o with
  | Some s => s
  | None => "None"
  end.

(** A computation with effects emits warnings, in order, and returns or
    raises. *)

Definition M (A : Type) : Type := (list string * outcome A)%type.

Definition ret {A} (a : A) : M A := ([], Ok a).

Definition mbind {A B} (x : M A) (f : A -> M B) : M B :=
  match x with
  | (w, Ok a) => let (w', r) := f a in ((w ++ w')%list, r)
  | (w, Raise e) => (w, Raise e)
  end.

Definition warn (msg : string) : M unit := ([msg], Ok tt).

Definition lift {A} (o : outcome A) : M A := ([], o).

End Py.

Import Py.

Declare Scope py_scope.
Delimit Scope py_scope with py.
Notation "x <- e ;; f" := (Py.bind e (fun x => f))
  (at level 61, e at next level, right associativity) : py_scope.
Notation "x <~ e ;; f" := (Py.mbind e (fun x => f))
  (at level 61, e at next level, right associativity) : py_scope.
Notation "e ;;; f" := (Py.mbind e (fun _ => f))
  (at level 61, right associativity) : py_scope.

(** A list comprehension whose body may raise: left to right, the first
    exception ends it. *)
Fixpoint for_each {A B} (f : A -> outcome B) (l : list A) : outcome (list B) :=
  match l with
  | [] => Ok []
  | a :: l' => (b <- f a ;; bs <- for_each f l' ;; Ok (b :: bs))%py
  end.

(** ** Regular expressions as [re.match] runs them

    A backtracking matcher in continuation-passing style: greedy
    quantifiers try the longest repetition first and give characters back
    one at a time; an optional part is tried before it is skipped; a group
    records the text it consumed; a back-reference matches that text again.
    Quantifiers in the patterns of results.py only ever repeat a single
    character or class, which is what [Star] and [Plus] take. *)

Module Re.

(** Members of a bracketed class. *)
Inductive item : Set :=
| Ch (c : ascii)      (* a literal character *)
| Digit.              (* \d *)

Definition item_ok (i : item) (c : ascii) : bool :=
  match i with
  | Ch d => Ascii.eqb c d
  | Digit => is_digit c
  end.

(** What matches exactly one character. *)
Inductive atom : Set :=
| Lit (c : ascii)             (* c *)
| Dot                         (* .  : anything but a newline *)
| OneOf (l : list item)       (* [...] *)
| NoneOf (l : list item).     (* [^...] *)

Definition newline : ascii := ascii_of_nat 10.
Definition soh : ascii := ascii_of_nat 1.

Definition atom_ok (a : atom) (c : ascii) : bool :=
  match a with
  | Lit d => Ascii.eqb c d
  | Dot => negb (Ascii.eqb c newline)
  | OneOf l => existsb (fun i => item_ok i c) l
  | NoneOf l => negb (existsb (fun i => item_ok i c) l)
  end.

Inductive regex : Set :=
| Eps
| Bol                         (* ^ *)
| Eol                         (* $ *)
| One (a : atom)
| Seq (r1 r2 : regex)
| Star (a : atom)             (* a* *)
| Plus (a : atom)             (* a+ *)
| Opt (r : regex)             (* (r)? *)
| Group (n : nat) (r : regex) (* the n-th parenthesis *)
| Backref (n : nat).          (* \n *)

(** A literal run of characters. *)
Fixpoint text (s : string) : regex :=
  match s with
  | EmptyString => Eps
  | String c s' => Seq (One (Lit c)) (text s')
  end.

(** Captured groups, most recent first. *)
Definition groups := list (nat * string).

Fixpoint group (g : groups) (n : nat) : option string :=
  match g with
  | [] => None
  | (i, t) :: g' => if Nat.eqb i n then Some t else group g' n
  end.

(** [$] holds at the end of the string and just before a final newline. *)
Definition at_eol (s : string) : bool :=
  match s with
  | EmptyString => true
  | String c EmptyString => Ascii.eqb c newline
  | _ => false
  end.

(** The text between two positions, each given by what is left to read. *)
Definition consumed (s s' : string) : string :=
  take (String.length s - String.length s') s.

Fixpoint star (a : atom) (k : string -> option groups) (s : string)
  : option groups :=
  match s with
  | String c s' =>
      if atom_ok a c then
        match star a k s' with
        | Some r => Some r
        | None => k s
        end
      else k s
  | EmptyString => k s
  end.

Fixpoint run (whole : string) (r : regex) (s : string) (g : groups)
  (k : string -> groups -> option groups) : option groups :=
  match r with
  | Eps => k s g
  | Bol => if Nat.eqb (String.length s) (String.length whole) then k s g else None
  | Eol => if at_eol s then k s g else None
  | One a =>
      match s with
      | String c s' => if atom_ok a c then k s' g else None
      | EmptyString => None
      end
  | Seq r1 r2 => run whole r1 s g (fun s' g' => run whole r2 s' g' k)
  | Star a => star a (fun s' => k s' g) s
  | Plus a =>
      match s with
      | String c s' => if atom_ok a c then star a (fun s'' => k s'' g) s' else None
      | EmptyString => None
      end
  | Opt r' =>
      match run whole r' s g k with
      | Some res => Some res
      | None => k s g
      end
  | Group n r' => run whole r' s g (fun s' g' => k s' ((n, consumed s s') :: g'))
  | Backref n =>
      match group g n with
      | Some t =>
          match strip_prefix t s with
          | Some s' => k s' g
          | None => None
          end
      | None => None
      end
  end.

(** A greedy repetition of [a] cannot go on into [s]. *)
Definition stops (a : atom) (s : string) : Prop :=
  match s with
  | EmptyString => True
  | String c _ => atom_ok a c = false
  end.

(** [re.match(r, s)]: the groups of the first successful run from the start
    of [s], or [None]. *)
Definition re_match (r : regex) (s : string) : option groups :=
  run s r s [] (fun _ g => Some g).

End Re.

(** ** bambi/results.py *)

Module Results.
Import Re.
#[local] Open Scope py_scope.

(** *** What results.py reads of a model

    A [Term] has a name, its level labels, the random flag and its numeric
    data (rows of a matrix); [terms] is the model's ordered dict of terms. *)

Record Term : Set := {
  name : string;
  levels : list string;
  random : bool;
  data : list (list float)
}.

(** A cell of the user's data frame, and [str()] of it. *)
Inductive pyobj : Set :=
| PyStr (s : string)
| PyInt (n : nat).

Definition str (v : pyobj) : string :=
  match v with
  | PyStr s => s
  | PyInt n => str_nat n
  end.

(** A column of the data frame, with integer row labels as pandas gives them
    by default and keeps them when rows are dropped: the rows, each a label
    with its value, and [str()] of a selection of several rows, which is
    pandas' rendering. *)
Record Series : Set := {
  rows : list (nat * pyobj);
  series_str : list (nat * pyobj) -> string
}.

(** A random variable of the backend model; [transformed] is
    [isinstance(var, TransformedRV)]. *)
Record RV : Set := {
  rv_name : string;
  transformed : bool
}.

Record Model : Set := {
  terms : list (string * Term);
  y : option Term;
  family_name : string;                    (* model.family.name *)
  frame : list (string * Series);          (* model.data *)
  unobserved_RVs : list RV                 (* model.backend.model.unobserved_RVs *)
}.

(** [model.random_terms] and [model.fixed_terms]: the views of [terms] that
    hold the terms whose random flag is set, respectively not set. *)
Definition random_terms (m : Model) : list (string * Term) :=
  filter (fun kt => random (snd kt)) (terms m).


Definition keys {A} (d : list (string * A)) : list string := map fst d.
Definition values {A} (d : list (string * A)) : list A := map snd d.

(** [x in l] for a list (or set) of strings *)
Definition mem (x : string) (l : list string) : bool :=
  existsb (String.eqb x) l.

(** What results.py reads of a [MultiTrace]. *)
Record MultiTrace : Set := {
  varnames : list string;
  nchains : nat;
  n_samples : nat                          (* len(trace) *)
}.

Record PyMC3Results : Set := {
  model : Model;
  trace : MultiTrace;
  untransformed_vars : list string
}.

(** [PyMC3Results.__init__] *)
Definition __init__ (model : Model) (trace : MultiTrace) : PyMC3Results :=
  let rvs := unobserved_RVs model in
  let trans := map rv_name (filter transformed rvs) in
  let untrans := filter (fun x => negb (mem x trans)) (map rv_name rvs) in
  let untrans := filter (fun x => negb (existsb (fun t => contains x t) trans)) untrans in
  {| model := model;
     trace := trace;
     untransformed_vars :=
       filter (fun x => mem x trans || mem x untrans) (varnames trace) |}.

(** *** The patterns *)

(** [^u_([^\|]+)\|([^_\1]+)_\1(.*_sd$)?]  (in a class, [\1] is the character
    of code 1; outside, the text of group 1) *)
Definition format_re : regex :=
  Seq Bol (Seq (text "u_")
  (Seq (Group 1 (Plus (NoneOf [Ch "|"])))
  (Seq (One (Lit "|"))
  (Seq (Group 2 (Plus (NoneOf [Ch "_"; Ch soh])))
  (Seq (One (Lit "_"))
  (Seq (Backref 1)
       (Opt (Group 3 (Seq (Star Dot) (Seq (text "_sd") Eol)))))))))).

(** [^([bu]_)(.+[^__\d+]+)(__\d+)?$] *)
Definition re1_pat : regex :=
  Seq Bol
  (Seq (Group 1 (Seq (One (OneOf [Ch "b"; Ch "u"])) (One (Lit "_"))))
  (Seq (Group 2 (Seq (Plus Dot) (Plus (NoneOf [Ch "_"; Ch "_"; Digit; Ch "+"]))))
  (Seq (Opt (Group 3 (Seq (text "__") (Plus (OneOf [Digit])))))
       Eol))).

(** [^([^\|]+)\|([^_\1]+)(_\1)?(\[.+\])?$] *)
Definition re2_pat : regex :=
  Seq Bol
  (Seq (Group 1 (Plus (NoneOf [Ch "|"])))
  (Seq (One (Lit "|"))
  (Seq (Group 2 (Plus (NoneOf [Ch "_"; Ch soh])))
  (Seq (Opt (Group 3 (Seq (One (Lit "_")) (Backref 1))))
  (Seq (Opt (Group 4 (Seq (One (Lit "[")) (Seq (Plus Dot) (One (Lit "]"))))))
       Eol))))).

(** [^([^\|]+)(\|[^_\1]+)?(_\1)?(\[\d+\])?_sd$] *)
Definition re3_pat : regex :=
  Seq Bol
  (Seq (Group 1 (Plus (NoneOf [Ch "|"])))
  (Seq (Opt (Group 2 (Seq (One (Lit "|")) (Plus (NoneOf [Ch "_"; Ch soh])))))
  (Seq (Opt (Group 3 (Seq (One (Lit "_")) (Backref 1))))
  (Seq (Opt (Group 4 (Seq (One (Lit "[")) (Seq (Plus (OneOf [Digit])) (One (Lit "]"))))))
  (Seq (text "_sd")
       Eol))))).

(** *** [_filter_names] *)

(** The helper [_format] of [_filter_names]. *)
Definition _format (name : string) : string :=
  match re_match format_re name with
  | None => name
  | Some regex =>
      match group regex 3 with
      | Some _ => name
      | None => "u_" ++ fmt (group regex 1) ++ "|" ++ fmt (group regex 2)
      end
  end.

(** The [names] argument is overwritten before it is read. *)
Definition _filter_names (self : PyMC3Results) (names : option (list string))
  (exclude_ranefs hide_transformed : bool) : list string :=
  let names :=
    if hide_transformed then untransformed_vars self
    else varnames (trace self) in
  if exclude_ranefs then
    filter (fun x => negb (mem (drop 2 (_format x))
                               (keys (random_terms (model self))))) names
  else names.

(** A name that [__init__] leaves out of [untransformed_vars]: it is not the
    name of a TransformedRV, and the name of one occurs in it. *)
Definition internally_transformed (m : Model) (x : string) : bool :=
  let trans := map rv_name (filter transformed (unobserved_RVs m)) in
  negb (mem x trans) && existsb (fun t => contains x t) trans.

(** The characters that [[^\|]] and [[^_\1]] accept. *)
Definition not_bar (c : ascii) : bool := negb (Ascii.eqb c "|").

Definition group_char (c : ascii) : bool :=
  negb (Ascii.eqb c "_") && negb (Ascii.eqb c soh).

Definition nl : string := String newline EmptyString.

(** *** [_prettify_name]

    The result is a string, or [None] where the Python function would fall
    off its end. *)
Definition level_at (term : Term) (idx : option string) : outcome string :=
  g3 <- subscriptable idx ;;
  i <- int (drop 2 g3) ;;
  getitem (levels term) i.

Definition _prettify_name (self : PyMC3Results) (old_name : string)
  : outcome (option string) :=
  match re_match re1_pat old_name with
  | None => Ok (Some old_name)
  | Some re1 =>
      subject <- subscriptable (group re1 2) ;;
      match re_match re2_pat subject with
      | Some re2 =>
          term <- dict_getitem (terms (model self))
                    (fmt (group re2 1) ++ "|" ++ fmt (group re2 2)) ;;
          match group re2 4 with
          | Some g4 =>
              g3 <- subscriptable (group re2 3) ;;
              lev <- level_at term (group re1 3) ;;
              Ok (Some (drop 1 g3 ++ g4 ++ "|" ++ lev))
          | None =>
              lev <- level_at term (group re1 3) ;;
              Ok (Some (fmt (group re2 1) ++ "|" ++ lev))
          end
      | None =>
          let re3 := re_match re3_pat subject in
          match group re1 3, re3 with
          | None, Some re3 =>
              match group re3 2 with
              | None => Ok (Some ("1|" ++ fmt (group re3 1) ++ "_sd"))
              | Some g2 =>
                  match group re3 4 with
                  | Some g4 =>
                      g3 <- subscriptable (group re3 3) ;;
                      Ok (Some (drop 1 g3 ++ g4 ++ g2 ++ "_sd"))
                  | None => Ok (Some (fmt (group re3 1) ++ g2 ++ "_sd"))
                  end
              end
          | _, _ =>
              term <- dict_getitem (terms (model self)) subject ;;
              if fmt (group re1 1) =? "b_" then
                match group re1 3 with
                | None => Ok (Some subject)
                | Some _ => lev <- level_at term (group re1 3) ;; Ok (Some lev)
                end
              else if fmt (group re1 1) =? "u_" then
                lev <- level_at term (group re1 3) ;;
                Ok (Some ("1|" ++ subject ++ "[" ++ lev ++ "]"))
              else Ok None
          end
      end
  end.

(** The name matches [^[bu]_]. *)
Definition has_bu_prefix (s : string) : bool :=
  match s with
  | String c (String d _) =>
      (Ascii.eqb c "b" || Ascii.eqb c "u") && Ascii.eqb d "_"
  | _ => false
  end.

(** [_prettify_name] applied [n] times in a row; with [None] for a name,
    [re.match] raises a [TypeError]. *)
Fixpoint decode_again (self : PyMC3Results) (n : nat) (name : string)
  : outcome (option string) :=
  match n with
  | O => Ok (Some name)
  | S n' =>
      r <- _prettify_name self name ;;
      match r with
      | Some decoded => decode_again self n' decoded
      | None => Raise TypeError
      end
  end.

(** *** Data frames

    A frame has row labels and named columns of floats, each column as long
    as the index.  After [set_index] a label is what [_prettify_name]
    returned: a string or [None]. *)

Definition label := option string.

Record Frame (L : Type) : Type := {
  index : list L;
  columns : list (string * list float)
}.
Arguments index {L} f.
Arguments columns {L} f.

Definition column_names {L} (df : Frame L) : list string := keys (columns df).

Definition set_index {L L'} (df : Frame L) (idx : list L') : Frame L' :=
  {| index := idx; columns := columns df |}.

Definition label_eqb (a b : label) : bool :=
  match a, b with
  | Some x, Some y => x =? y
  | None, None => true
  | _, _ => false
  end.

(** [df.drop(name, axis=1)]: every column of that name goes; a name that
    labels no column is an error. *)
Definition drop_column {L} (name : string) (df : Frame L) : outcome (Frame L) :=
  if mem name (column_names df) then
    Ok {| index := index df;
          columns := filter (fun c => negb (fst c =? name)) (columns df) |}
  else Raise ValueError.

(** Positions of the rows of [idx] labelled [l]. *)
Fixpoint positions (l : label) (idx : list label) (i : nat) : list nat :=
  match idx with
  | [] => []
  | l' :: idx' =>
      if label_eqb l l' then i :: positions l idx' (S i) else positions l idx' (S i)
  end.

(** The rows of a left join on the index: each left row with each right row
    of the same label, or with no right row. *)
Fixpoint join_plan (left right : list label) (i : nat)
  : list (label * nat * option nat) :=
  match left with
  | [] => []
  | l :: left' =>
      (match positions l right 0 with
       | [] => [(l, i, None)]
       | js => map (fun j => (l, i, Some j)) js
       end ++ join_plan left' right (S i))%list
  end.

(** [df.merge(right, how='left', left_index=True, right_index=True)]: a
    column name that both frames have gets the suffix [_x] on the left and
    [_y] on the right; a left row without a partner has NaN in the right
    columns. *)
Definition suffixed (others : list string) (suffix name : string) : string :=
  if mem name others then name ++ suffix else name.

Definition merge (df right : Frame label) : Frame label :=
  let plan := join_plan (index df) (index right) 0 in
  let left_cols :=
    map (fun c => (suffixed (column_names right) "_x" (fst c),
                   map (fun p => nth (snd (fst p)) (snd c) nan) plan))
        (columns df) in
  let right_cols :=
    map (fun c => (suffixed (column_names df) "_y" (fst c),
                   map (fun p => match snd p with
                                 | Some j => nth j (snd c) nan
                                 | None => nan
                                 end) plan))
        (columns right) in
  {| index := map (fun p => fst (fst p)) plan;
     columns := (left_cols ++ right_cols)%list |}.

(** *** The backend: pymc3, its diagnostics and the plotting it drives *)

(** A diagnostic of one variable: a number, or an array of them. *)
Inductive stat : Set :=
| Scalar (x : float)
| Arr (v : list float).

Definition kwargs := list (string * string).

(** The plotted panels, one per name. *)
Record Axes : Set := { panels : list string }.

(** [trace[burn_in:]] is handed over as the trace and [burn_in]. *)
Record Backend : Type := {
  (* pm.df_summary(trace[burn_in:], varnames=names, **kwargs) *)
  df_summary : MultiTrace -> nat -> list string -> kwargs -> outcome (Frame string);
  (* pmd.effective_n(diag_trace), pmd.gelman_rubin(diag_trace) *)
  effective_n : MultiTrace -> nat -> outcome (list (string * stat));
  gelman_rubin : MultiTrace -> nat -> outcome (list (string * stat));
  (* the posterior means, pm.traceplot and the annotations drawn on its
     axes: lines 145 to 189 of results.py *)
  traceplot : PyMC3Results -> nat -> list string -> bool -> kwargs -> M Axes;
  (* model.plot() *)
  model_plot : Model -> M Axes
}.

(** *** The convergence diagnostics of [summary] *)

(** [l.remove(x)] where [x] is known to be in [l] *)
Fixpoint list_remove (x : string) (l : list string) : list string :=
  match l with
  | [] => []
  | a :: l' => if a =? x then l' else a :: list_remove x l'
  end.

(** [for var in set(varnames) - set(names): varnames.remove(var)] *)
Definition keep_names (vs names : list string) : list string :=
  fold_left (fun acc var => list_remove var acc)
            (nodup string_dec (filter (fun v => negb (mem v names)) vs)) vs.

(** A dict keyed by labels, in insertion order. *)
Definition stats := list (label * stat).

Fixpoint dict_pop (k : label) (d : stats) : stats :=
  match d with
  | [] => []
  | (k', v) :: d' => if label_eqb k k' then d' else (k', v) :: dict_pop k d'
  end.

Fixpoint dict_set (k : label) (v : stat) (d : stats) : stats :=
  match d with
  | [] => [(k, v)]
  | (k', v') :: d' =>
      if label_eqb k k' then (k, v) :: d' else (k', v') :: dict_set k v d'
  end.

(** [for i, x in enumerate(v): stat[prettify('{}__{}'.format(k, i))] = x] *)
Fixpoint set_levels (self : PyMC3Results) (k : string) (v : list float)
  (i : nat) (d : stats) : outcome stats :=
  match v with
  | [] => Ok d
  | x :: v' =>
      pretty <- _prettify_name self (k ++ "__" ++ str_nat i) ;;
      set_levels self k v' (S i) (dict_set pretty (Scalar x) d)
  end.

(** The loop over [list(stat.items())] that renames the keys of [stat]. *)
Fixpoint rename_stats (self : PyMC3Results) (items : list (string * stat))
  (d : stats) : outcome stats :=
  match items with
  | [] => Ok d
  | (k, v) :: items' =>
      let d := dict_pop (Some k) d in
      d <- match v with
           | Arr xs =>
               if (1 <? length xs)%nat then set_levels self k xs 0 d
               else pretty <- _prettify_name self k ;; Ok (dict_set pretty v d)
           | Scalar _ => pretty <- _prettify_name self k ;; Ok (dict_set pretty v d)
           end ;;
      rename_stats self items' d
  end.

(** [pd.DataFrame(stat, index=[diag_name]).T]: one row per key, one column. *)
Definition stat_cell (v : stat) : outcome float :=
  match v with
  | Scalar x => Ok x
  | Arr [x] => Ok x
  | Arr _ => Raise ValueError
  end.

Definition stat_frame (diag_name : string) (d : stats) : outcome (Frame label) :=
  cells <- for_each (fun kv => stat_cell (snd kv)) d ;;
  Ok {| index := map fst d; columns := [(diag_name, cells)] |}.

Definition append_diagnostic (self : PyMC3Results)
  (diag_trace : MultiTrace) (burn_in : nat) (df : Frame label)
  (diag : (MultiTrace -> nat -> outcome (list (string * stat))) * string)
  : outcome (Frame label) :=
  st <- fst diag diag_trace burn_in ;;
  d <- rename_stats self st (map (fun kv => (Some (fst kv), snd kv)) st) ;;
  right <- stat_frame (snd diag) d ;;
  Ok (merge df right).

Fixpoint append_diagnostics (self : PyMC3Results)
  (diag_trace : MultiTrace) (burn_in : nat) (df : Frame label)
  (diags : list ((MultiTrace -> nat -> outcome (list (string * stat))) * string))
  : outcome (Frame label) :=
  match diags with
  | [] => Ok df
  | diag :: diags' =>
      df <- append_diagnostic self diag_trace burn_in df diag ;;
      append_diagnostics self diag_trace burn_in df diags'
  end.

Definition no_diagnostics_warning : string :=
  "Multiple MCMC chains (i.e., njobs > 1) are required in order to compute convergence diagnostics.".

(** *** The reminder of which event a binomial model models *)

(** [np.maximum]: a NaN wins. *)
Definition np_maximum (a b : float) : float :=
  if PrimFloat.is_nan a then a
  else if PrimFloat.is_nan b then b
  else if (a <? b)%float then b else a.

(** [np.max] of a matrix, given by its rows; of an empty one, an error. *)
Definition np_max (rows : list (list float)) : outcome float :=
  match concat rows with
  | [] => Raise ValueError
  | x :: xs => Ok (fold_left np_maximum xs x)
  end.

(** [next(i for i, x in enumerate(l) if p x)], counting from [i] *)
Fixpoint next_index (p : float -> bool) (l : list float) (i : nat) : outcome nat :=
  match l with
  | [] => Raise StopIteration
  | x :: l' => if p x then Ok i else next_index p l' (S i)
  end.

(** [series[k]] for an integer [k]: a lookup by row label, not by position.
    One row carries the label: its value.  Several do: those rows, again a
    Series.  None does: a KeyError. *)
Inductive selection : Set :=
| Cell (v : pyobj)
| Rows (rs : list (nat * pyobj)).

Definition labelled (k : nat) (s : Series) : list (nat * pyobj) :=
  filter (fun r => Nat.eqb (fst r) k) (rows s).

Definition series_getitem (s : Series) (k : nat) : outcome selection :=
  match labelled k s with
  | [] => Raise KeyError
  | [(_, v)] => Ok (Cell v)
  | rs => Ok (Rows rs)
  end.

(** [str()] of what [series[k]] gave. *)
Definition str_selection (s : Series) (sel : selection) : string :=
  match sel with
  | Cell v => str v
  | Rows rs => series_str s rs
  end.

Definition attr {A} (o : option A) : outcome A :=
  match o with
  | Some a => Ok a
  | None => Raise AttributeError
  end.

(** The literals [.99] and [1.01], as the binary64 numbers Python reads. *)
#[warnings="-inexact-float"]
Definition event_threshold : float := 0.99.
#[warnings="-inexact-float"]
Definition single_trial_bound : float := 1.01.

Definition is_event (x : float) : bool := (event_threshold <? x)%float.

Definition reminder (yt : Term) (value : string) : string :=
  "Modeling the probability that " ++ name yt ++ "=='" ++ value ++ "'".

Definition binomial_reminder (self : PyMC3Results) : M unit :=
  if family_name (model self) =? "binomial" then
    yt <~ lift (attr (y (model self))) ;;
    top <~ lift (np_max (data yt)) ;;
    if (top <? single_trial_bound)%float then
      event <~ lift (next_index is_event (concat (data yt)) 0) ;;
      col <~ lift (dict_getitem (frame (model self)) (name yt)) ;;
      v <~ lift (series_getitem col event) ;;
      warn (reminder yt (str_selection col v))
    else ret tt
  else ret tt.

(** [if names is None: names = self._filter_names(names, ...)] *)
Definition names_or_filtered (self : PyMC3Results) (names : option (list string))
  (exclude_ranefs hide_transformed : bool) : list string :=
  match names with
  | None => _filter_names self names exclude_ranefs hide_transformed
  | Some ns => ns
  end.

(** *** [plot]

    Defaults: [burn_in=0], [names=None], [annotate=True],
    [exclude_ranefs=False], [hide_transformed=True], [kind='trace']. *)
Definition plot (pm : Backend) (self : PyMC3Results) (burn_in : nat)
  (names : option (list string)) (annotate exclude_ranefs hide_transformed : bool)
  (kind : string) (kw : kwargs) : M Axes :=
  if kind =? "priors" then model_plot pm (model self)
  else
    let names := names_or_filtered self names exclude_ranefs hide_transformed in
    ax <~ traceplot pm self burn_in names annotate kw ;;
    binomial_reminder self ;;;
    ret ax.

(** *** [summary]

    Defaults: [burn_in=0], [exclude_ranefs=True], [names=None],
    [hide_transformed=True], [mc_error=False]. *)

(** "append diagnostic info if there are multiple chains" *)
Definition diagnostics_stage (pm : Backend) (self : PyMC3Results) (burn_in : nat)
  (names : list string) (df : Frame label) : M (Frame label) :=
  if (1 <? nchains (trace self))%nat then
    let diag_trace :=
      {| varnames := keep_names (varnames (trace self)) names;
         nchains := nchains (trace self);
         n_samples := n_samples (trace self) - burn_in |} in
    lift (append_diagnostics self diag_trace burn_in df
            [(effective_n pm, "effective_n");
             (gelman_rubin pm, "gelman_rubin")])
  else
    warn no_diagnostics_warning ;;;
    ret df.

Definition summary (pm : Backend) (self : PyMC3Results) (burn_in : nat)
  (exclude_ranefs : bool) (names : option (list string))
  (hide_transformed mc_error : bool) (kw : kwargs) : M (Frame label) :=
  let names := names_or_filtered self names exclude_ranefs hide_transformed in
  df <~ lift (df_summary pm (trace self) burn_in names kw) ;;
  idx <~ lift (for_each (_prettify_name self) (index df)) ;;
  let df := set_index df idx in
  df <~ diagnostics_stage pm self burn_in names df ;;
  df <~ (if negb mc_error then lift (drop_column "mc_error" df) else ret df) ;;
  binomial_reminder self ;;;
  ret df.

(** The columns that the [mc_error] argument leaves of a list of columns. *)
Definition kept_columns (mc_error : bool) (names : list string) : list string :=
  if mc_error then names else filter (fun c => negb (c =? "mc_error")) names.

(** The trace [summary] hands to the diagnostics: [self.trace[burn_in:]]
    without the variables that are not among [names]. *)
Definition diag_trace (self : PyMC3Results) (burn_in : nat) (names : list string)
  : MultiTrace :=
  {| varnames := keep_names (varnames (trace self)) names;
     nchains := nchains (trace self);
     n_samples := n_samples (trace self) - burn_in |}.

(** *** [get_trace]

    Defaults: [burn_in=0], [names=None], [exclude_ranefs=True],
    [hide_transformed=True]. *)








End Results.

(** ** The shapes of backend names

    What the patterns of [_prettify_name] and [_format] ask of the parts of
    a name, as predicates on strings, with the pieces of the patterns that
    the properties below reason about. *)

Module Shapes.
Import Re Results.

Definition is_suffix (s' s : string) : Prop := exists p, s = p ++ s'.


(** What [.] accepts: any character but a newline. *)
Definition dot_ok (c : ascii) : bool := negb (Ascii.eqb c newline).

(** What the class [[^__\d+]] of the first pattern accepts. *)
Definition term_end (c : ascii) : bool :=
  negb (Ascii.eqb c "_") && negb (is_digit c) && negb (Ascii.eqb c "+").

(** The characters of an index [__<digits>]. *)
Definition index_char (c : ascii) : bool := Ascii.eqb c "_" || is_digit c.

Definition tail_class : atom := NoneOf [Ch "_"; Ch "_"; Digit; Ch "+"].

(** A term [p ++ c] that the first pattern takes for its second group: at
    least two characters, none a newline or a [|], the last one neither
    [_], a digit nor [+]. *)
Definition well_formed_term (p : string) (c : ascii) : bool :=
  negb (p =? EmptyString) &&
  forall_chars (fun a => dot_ok a && not_bar a) (p ++ String c EmptyString) &&
  term_end c.






End Shapes.

(** ** bambi/models.py, as the specification describes it

    models.py is not among the sources at hand; the builder is modelled from
    sections 3, 4.1 and 4.2 of the specification.  What the specification
    leaves open -- how a term's columns are computed, how a default prior is
    derived from them, how a formula string denotes terms -- is a parameter
    of the builder. *)

Module Models.
#[local] Open Scope py_scope.

Definition matrix := list (list float).   (* the rows *)

(** Modelled from the spec: the [data] of a Term of models.py, "a numeric
    matrix, or a mapping from group-label to numeric matrix". *)
Inductive Encoding : Set :=
| Dense (m : matrix)
| GroupedByLevel (blocks : list (string * matrix)).

(** Modelled from the spec: the prior of a Term of models.py, "a name and a
    mapping of hyperparameters". *)
Record Prior : Set := {
  dist : string;
  args : list (string * float)
}.

(** Modelled from the spec: the class Term of models.py (section 3). *)
Record Term : Set := {
  name : string;
  categorical : bool;
  random : bool;
  data : Encoding;
  levels : list string;
  prior : option Prior
}.

(** The user's table: named columns of numbers (NaN where a value is
    missing). *)
Definition Table := list (string * list float).

(** Modelled from the spec: the class Model of models.py (section 3); with
    [dropna] the model silently drops incomplete rows. *)
Record Model : Set := {
  table : Table;
  terms : list (string * Term);
  y : option Term;
  family : string;
  dropna : bool
}.

(** Modelled from the spec: a fresh [Model(data, dropna=...)]. *)
Definition new_model (d : Table) (dropna : bool) : Model :=
  {| table := d; terms := []; y := None; family := "gaussian"; dropna := dropna |}.

(** What a term is, whatever it is called: the intercept, or a predictor
    with the arguments of [add_term] (section 4.2). *)
Inductive Effect : Set :=
| Intercept
| Predictor (var : string) (over : option string)
            (random categorical drop_first : bool).

Definition is_random (e : Effect) : bool :=
  match e with
  | Intercept => false
  | Predictor _ _ r _ _ => r
  end.

Definition is_categorical (e : Effect) : bool :=
  match e with
  | Intercept => false
  | Predictor _ _ _ c _ => c
  end.

(** A term specification: an effect under the name of its term. *)
Definition Spec := (string * Effect)%type.

(** [d[k] = v] on an ordered dict: a known key keeps its place. *)
Fixpoint dict_set {A} (k : string) (v : A) (d : list (string * A))
  : list (string * A) :=
  match d with
  | [] => [(k, v)]
  | (k', v') :: d' =>
      if k =? k' then (k, v) :: d' else (k', v') :: dict_set k v d'
  end.

(** Modelled from the spec: the random-effect strings of the formula path of
    models.py (which is not among the sources) use the [effect|group]
    syntax, and parsing "must reject malformed random-effect syntax (fails
    with a validation error, e.g. a grouping factor expression with more
    than one |)".  What else is malformed is taken from the tests, which are
    among the sources: test_invalid_chars_in_random_effect has
    [fit(random=['1+BP|age_grp'])] raise a ValueError, while
    test_many_fixed_many_random builds its models from [0+threecats|subj],
    [1|item] and [dummy|item].  So the effect is one name, which a leading
    [0+] may precede; a [+] anywhere else in it is an invalid character. *)
Fixpoint partition_bar (s : string) : string * option string :=
  match s with
  | EmptyString => (EmptyString, None)
  | String c s' =>
      if Ascii.eqb c "|" then (EmptyString, Some s')
      else let (a, b) := partition_bar s' in (String c a, b)
  end.

(** The effect without the [0+] that keeps the intercept out. *)
Definition without_zero (effect : string) : string :=
  match strip_prefix "0+" effect with
  | Some e => e
  | None => effect
  end.

Definition parse_random (spec : string) : outcome (string * string) :=
  match partition_bar spec with
  | (effect, Some grouping) =>
      if contains grouping "|" || contains (without_zero effect) "+"
      then Raise ValueError
      else Ok (effect, grouping)
  | (_, None) => Raise ValueError
  end.

(** Occurrences of a character in a string. *)
Fixpoint count_char (c : ascii) (s : string) : nat :=
  match s with
  | EmptyString => 0
  | String c' s' => (if Ascii.eqb c' c then 1 else 0) + count_char c s'
  end.

(** *** Design-matrix columns *)

Definition blocks (e : Encoding) : list matrix :=
  match e with
  | Dense m => [m]
  | GroupedByLevel bs => map snd bs
  end.

Definition map_blocks (f : matrix -> matrix) (e : Encoding) : Encoding :=
  match e with
  | Dense m => Dense (f m)
  | GroupedByLevel bs => GroupedByLevel (map (fun b => (fst b, f (snd b))) bs)
  end.

Definition width (m : matrix) : nat :=
  match m with
  | [] => 0
  | r :: _ => length r
  end.

(** The columns of a block, each as the tuple of its values. *)
Definition columns_of_matrix (m : matrix) : list (list float) :=
  map (fun j => map (fun r => nth j r nan) m) (seq 0 (width m)).

Definition columns_of (e : Encoding) : list (list float) :=
  flat_map columns_of_matrix (blocks e).

(** The larger of [a] and the magnitude of [b]. *)
Definition np_maximum_abs (a b : float) : float :=
  if (a <? abs b)%float then abs b else a.

(** *** Missing values *)

Definition all_blocks (es : list Encoding) : list matrix := flat_map blocks es.

Definition height (es : list Encoding) : nat :=
  fold_right Nat.max 0 (map (@length (list float)) (all_blocks es)).

(** Row [i] has a missing value in some term. *)
Definition incomplete (es : list Encoding) (i : nat) : bool :=
  existsb (fun blk => existsb PrimFloat.is_nan (nth i blk [])) (all_blocks es).

Definition nan_rows (es : list Encoding) : list nat :=
  filter (incomplete es) (seq 0 (height es)).

Definition drop_rows (bad : list nat) (m : matrix) : matrix :=
  map snd (filter (fun ir => negb (existsb (Nat.eqb (fst ir)) bad))
                  (combine (seq 0 (length m)) m)).

Definition dropped_rows_warning (n : nat) : string :=
  "Automatically removing " ++ str_nat n ++ " rows with missing values from the dataset.".

(** The grouping factor that the name of a random term encodes:
    [effect|group]. *)
Definition grouping_factor (term_name : string) : option string :=
  snd (partition_bar term_name).

(** The compiled model: the terms with their priors and complete rows, and
    the fixed-effect matrix, column by column. *)
Record Built : Set := {
  design : list (string * Term);
  X : list (list float)
}.

(** The Term of a specification, once encoded; its prior is set by
    [build]. *)
Definition term_of (sp : Spec) (enc : Encoding * list string) : Term :=
  {| name := fst sp;
     categorical := is_categorical (snd sp);
     random := is_random (snd sp);
     data := fst enc;
     levels := snd enc;
     prior := None |}.

Section Builder.

(** Section 4.1: the encoding of an effect over the table, with its level
    labels; it may fail with a validation error. *)
Variable encode : Table -> Effect -> outcome (Encoding * list string).

(** Section 4.2: the default prior, "a pure function of a term's encoded
    data", by structural role (random or fixed). *)
Variable default_prior : bool -> Encoding -> Prior.

(** The terms a formula denotes (section 4.2 leaves the rule open): the
    response and main effects and interactions of the fixed part; the terms
    of a random part [effect|group]. *)
Variable fixed_terms_of : string -> option string * list Spec.
Variable random_terms_of : string -> string -> list Spec.

(** Modelled from the spec: every path makes a Term of models.py "via
    section 4.1" and stores it under its name. *)
Definition add (m : Model) (sp : Spec) : outcome Model :=
  enc <- encode (table m) (snd sp) ;;
  Ok {| table := table m;
        terms := dict_set (fst sp) (term_of sp enc) (terms m);
        y := y m; family := family m; dropna := dropna m |}.

Fixpoint add_all (m : Model) (specs : list Spec) : outcome Model :=
  match specs with
  | [] => Ok m
  | sp :: specs' => m' <- add m sp ;; add_all m' specs'
  end.

(** Modelled from the spec: [add_y(name, family=, link=)] of models.py. *)
Definition add_y (m : Model) (name family : string) : outcome Model :=
  let response := (name, Predictor name None false false false) in
  enc <- encode (table m) (snd response) ;;
  Ok {| table := table m; terms := terms m;
        y := Some (term_of response enc); family := family; dropna := dropna m |}.

(** *** The incremental path *)

Inductive Call : Set :=
| call_add_y (name family : string)
| call_add_intercept
| call_add_term (name : string) (over : option string)
                (random categorical drop_first : bool)
| call_reset.

(** The name [add_term] gives a term: [name], or [name|over]. *)
Definition term_name (name : string) (over : option string) : string :=
  match over with
  | None => name
  | Some g => name ++ "|" ++ g
  end.

Definition spec_of_call (c : Call) : option Spec :=
  match c with
  | call_add_intercept => Some ("Intercept", Intercept)
  | call_add_term n o r c d => Some (term_name n o, Predictor n o r c d)
  | _ => None
  end.

(** Modelled from the spec: [add_y], [add_intercept], [add_term] and
    [reset] of models.py; "reset() clears all non-response terms back to
    empty". *)
Definition call (m : Model) (c : Call) : outcome Model :=
  match c with
  | call_add_y n f => add_y m n f
  | call_reset =>
      Ok {| table := table m; terms := []; y := y m;
            family := family m; dropna := dropna m |}
  | _ =>
      match spec_of_call c with
      | Some sp => add m sp
      | None => Ok m
      end
  end.

Fixpoint incremental (m : Model) (calls : list Call) : outcome Model :=
  match calls with
  | [] => Ok m
  | c :: calls' => m' <- call m c ;; incremental m' calls'
  end.

(** *** The formula path *)

Fixpoint random_specs (random : list string) : outcome (list Spec) :=
  match random with
  | [] => Ok []
  | r :: random' =>
      eg <- parse_random r ;;
      rest <- random_specs random' ;;
      Ok (random_terms_of (fst eg) (snd eg) ++ rest)%list
  end.

(** Modelled from the spec: [add_formula] of models.py (and [fit] with
    [run=False]): the formula and the [random] list are "parsed into an
    ordered list of term specifications", "each turned into a Term". *)
Definition add_formula (m : Model) (fixed : string) (random : list string)
  : outcome Model :=
  rs <- random_specs random ;;
  m <- match fst (fixed_terms_of fixed) with
       | Some response => add_y m response (family m)
       | None => Ok m
       end ;;
  add_all m (snd (fixed_terms_of fixed) ++ rs).

(** *** The effects a path specifies *)

(** The specifications that are in force after a sequence of them: a name
    used again replaces the earlier term. *)
Definition in_force (acc : list Spec) (specs : list Spec) : list Spec :=
  fold_left (fun acc sp => dict_set (fst sp) (snd sp) acc) specs acc.

Definition effects_of_formula (fixed : string) (random : list string)
  : outcome (list Effect) :=
  rs <- random_specs random ;;
  Ok (map snd (in_force [] (snd (fixed_terms_of fixed) ++ rs))).

Definition replay (acc : list Spec) (c : Call) : list Spec :=
  match c with
  | call_reset => []
  | _ => match spec_of_call c with
         | Some sp => dict_set (fst sp) (snd sp) acc
         | None => acc
         end
  end.

Definition effects_of_calls (calls : list Call) : list Effect :=
  map snd (fold_left replay calls []).

(** The terms [T] are those of the specifications [S] over the table [d]. *)
Definition tracks (d : Table) (S : list Spec) (T : list (string * Term)) : Prop :=
  Forall2 (fun sp kt => fst kt = fst sp /\
                        exists enc, encode d (snd sp) = Ok enc /\
                                    snd kt = term_of sp enc) S T.

(** What an effect contributes to a model over [d], whatever its name. *)
Definition content_of (d : Table) (e : Effect) : bool * Encoding * option Prior :=
  match encode d e with
  | Ok enc => (is_random e, fst enc, None)
  | Raise _ => (is_random e, Dense [], None)
  end.

(** *** [build] *)

Definition complete_rows (bad : list nat) (t : Term) : Term :=
  {| name := name t; categorical := categorical t; random := random t;
     data := map_blocks (drop_rows bad) (data t);
     levels := levels t; prior := prior t |}.

Definition with_default_prior (t : Term) : Term :=
  {| name := name t; categorical := categorical t; random := random t;
     data := data t; levels := levels t;
     prior := match prior t with
              | Some p => Some p
              | None => Some (default_prior (random t) (data t))
              end |}.

Definition grouping_known (d : Table) (t : Term) : bool :=
  if random t then
    match grouping_factor (name t) with
    | Some g => existsb (String.eqb g) (map fst d)
    | None => true
    end
  else true.

(** Modelled from the spec: [build] of models.py, the single transition
    that validates (section 4.2): no missing values remain, or the
    incomplete rows are dropped with a warning that states how many; every
    grouping factor exists in the data; the fixed-effect columns are
    assembled in insertion order. *)
Definition build (m : Model) : M Built :=
  let ts := map snd (terms m) in
  let bad := nan_rows (map data ts) in
  ts <~ match bad with
        | [] => ret (terms m)
        | _ :: _ =>
            if dropna m then
              warn (dropped_rows_warning (length bad)) ;;;
              ret (map (fun kt => (fst kt, complete_rows bad (snd kt))) (terms m))
            else lift (Raise ValueError)
        end ;;
  if forallb (fun kt => grouping_known (table m) (snd kt)) ts then
    let ts := map (fun kt => (fst kt, with_default_prior (snd kt))) ts in
    ret {| design := ts;
           X := flat_map (fun kt => columns_of (data (snd kt)))
                         (filter (fun kt => negb (random (snd kt))) ts) |}
  else lift (Raise ValueError).

(** What [build] makes of the content of a term, given the incomplete
    rows. *)
Definition finish (bad : list nat) (c : bool * Encoding * option Prior)
  : bool * Encoding * option Prior :=
  let dat := match bad with
             | [] => snd (fst c)
             | _ :: _ => map_blocks (drop_rows bad) (snd (fst c))
             end in
  (fst (fst c), dat,
   match snd c with
   | Some p => Some p
   | None => Some (default_prior (fst (fst c)) dat)
   end).

End Builder.

(** The content of a term, whatever its name: its structural role, its
    columns and its prior. *)
Definition content (t : Term) : bool * Encoding * option Prior :=
  (random t, data t, prior t).

Definition fixed_view (cs : list (bool * Encoding * option Prior)) :=
  flat_map (fun c => columns_of (snd (fst c)))
           (filter (fun c => negb (fst (fst c))) cs).

Definition random_view (cs : list (bool * Encoding * option Prior)) :=
  flat_map (fun c => columns_of (snd (fst c)))
           (filter (fun c => fst (fst c)) cs).

Definition prior_view (cs : list (bool * Encoding * option Prior)) :=
  map (fun c => (fst (fst c), snd c)) cs.

(** What the tests compare of two built models. *)
Definition fixed_columns (b : Built) : list (list float) :=
  flat_map (fun kt => columns_of (data (snd kt)))
           (filter (fun kt => negb (random (snd kt))) (design b)).

Definition random_columns (b : Built) : list (list float) :=
  flat_map (fun kt => columns_of (data (snd kt)))
           (filter (fun kt => random (snd kt)) (design b)).

(** The hyperparameters of each prior with the structural role of its term. *)
Definition prior_tuples (b : Built) : list (bool * option Prior) :=
  map (fun kt => (random (snd kt), prior (snd kt))) (design b).

Definition same_set {A} (l l' : list A) : Prop :=
  forall a, In a l <-> In a l'.

End Models.

(** ** A small fitted model and a small table, for concrete runs *)

Module Sample.
Import Results.

(** A model in the manner of the test suite: a continuous predictor, a
    three-level factor, a predictor whose name ends in a digit, a random
    slope over sites, and a binary response coded from labels. *)
Definition fixed (n : string) (lv : list string) : Term :=
  {| name := n; levels := lv; random := false; data := [] |}.

Definition the_terms : list (string * Term) :=
  [("BMI", fixed "BMI" ["BMI"]);
   ("S1", fixed "S1" ["S1"]);
   ("threecats",
    fixed "threecats" ["threecats[a]"; "threecats[b]"; "threecats[c]"]);
   ("threecats|site",
    {| name := "threecats|site"; levels := ["site[0]"; "site[1]"];
       random := true; data := [] |})].

Definition response : Term :=
  {| name := "outcome"; levels := ["outcome"]; random := false;
     data := [[0]; [0]; [1]; [0]; [1]]%float |}.

(** A column whose row labels are distinct: no selection of several rows is
    ever rendered. *)
Definition column (rs : list (nat * pyobj)) : Series :=
  {| rows := rs; series_str := fun _ => EmptyString |}.

Definition outcomes : Series :=
  column [(0, PyStr "no"); (1, PyStr "no"); (2, PyStr "yes");
          (3, PyStr "no"); (4, PyStr "yes")].

Definition the_model : Model :=
  {| terms := the_terms;
     y := Some response;
     family_name := "binomial";
     frame := [("outcome", outcomes)];
     unobserved_RVs :=
       [ {| rv_name := "b_BMI"; transformed := false |};
         {| rv_name := "b_threecats"; transformed := false |};
         {| rv_name := "u_threecats|site_threecats[0]_sd_log"; transformed := false |};
         {| rv_name := "u_threecats|site_threecats[0]_sd"; transformed := true |};
         {| rv_name := "u_threecats|site_threecats[0]"; transformed := false |} ] |}.

Definition the_trace (chains : nat) : MultiTrace :=
  {| varnames := ["b_BMI"; "b_threecats";
                  "u_threecats|site_threecats[0]_sd_log";
                  "u_threecats|site_threecats[0]_sd";
                  "u_threecats|site_threecats[0]"];
     nchains := chains;
     n_samples := 10 |}.

Definition fitted (chains : nat) : PyMC3Results :=
  __init__ the_model (the_trace chains).

(** A backend that summarises every draw as zero: one row per scalar, three
    rows for the factor. *)
Definition flat_names (names : list string) : list string :=
  flat_map (fun n => if n =? "b_threecats"
                     then ["b_threecats__0"; "b_threecats__1"; "b_threecats__2"]
                     else [n]) names.

Definition the_backend : Backend :=
  {| df_summary := fun _ _ names _ =>
       let rows := flat_names names in
       let zeros := map (fun _ => 0%float) rows in
       Ok {| index := rows;
             columns := [("mean", zeros); ("sd", zeros); ("mc_error", zeros);
                         ("hpd_2.5", zeros); ("hpd_97.5", zeros)] |};
     effective_n := fun t _ =>
       Ok (map (fun n => (n, if n =? "b_threecats"
                             then Arr [10; 10; 10]%float
                             else Scalar 10%float)) (varnames t));
     gelman_rubin := fun t _ =>
       Ok (map (fun n => (n, if n =? "b_threecats"
                             then Arr [1; 1; 1]%float
                             else Scalar 1%float)) (varnames t));
     traceplot := fun _ _ names _ _ => ret {| panels := names |};
     model_plot := fun _ => ret {| panels := [] |} |}.

(** [summary()] and [plot()] with their default arguments. *)
Definition the_summary (chains : nat) : M (Frame label) :=
  summary the_backend (fitted chains) 0 true None true false [].

Definition the_plot (chains : nat) : M Axes :=
  plot the_backend (fitted chains) 0 None true false true "trace" [].

Definition the_summary_with_mc_error (chains : nat) : M (Frame label) :=
  summary the_backend (fitted chains) 0 true None true true [].

(** The same study after its first row was dropped: three rows, which keep
    the labels 1, 2 and 3. *)
Definition later_response : Term :=
  {| name := "outcome"; levels := ["outcome"]; random := false;
     data := [[0]; [1]; [0]]%float |}.

Definition later_outcomes : Series :=
  column [(1, PyStr "no"); (2, PyStr "yes"); (3, PyStr "no")].

Definition later_model : Model :=
  {| terms := the_terms;
     y := Some later_response;
     family_name := "binomial";
     frame := [("outcome", later_outcomes)];
     unobserved_RVs := unobserved_RVs the_model |}.

Definition later (chains : nat) : PyMC3Results :=
  __init__ later_model (the_trace chains).

Definition later_summary (chains : nat) : M (Frame label) :=
  summary the_backend (later chains) 0 true None true false [].

Definition later_plot (chains : nat) : M Axes :=
  plot the_backend (later chains) 0 None true false true "trace" [].

(** A model with a fixed term whose own name begins with [b_]. *)
Definition nested_model : Model :=
  {| terms := [("b_xy", fixed "b_xy" ["b_xy"]); ("xy", fixed "xy" ["xy"])];
     y := None;
     family_name := "gaussian";
     frame := [];
     unobserved_RVs := [] |}.

Definition nested : PyMC3Results := __init__ nested_model (the_trace 1).

(** The table a run returned, and the table of the backend it began with. *)
Definition table_of (r : M (Frame label)) : Frame label :=
  match r with
  | (_, Ok df) => df
  | (_, Raise _) => {| index := []; columns := [] |}
  end.

Definition axes_of (r : M Axes) : Axes :=
  match r with
  | (_, Ok ax) => ax
  | (_, Raise _) => {| panels := [] |}
  end.

Definition the_base (chains : nat) : Frame string :=
  match df_summary the_backend (trace (fitted chains)) 0
          (names_or_filtered (fitted chains) None true true) [] with
  | Ok df => df
  | Raise _ => {| index := []; columns := [] |}
  end.











(** A table of four rows, and an encoding of its columns: a predictor is
    its column, a predictor over a grouping factor the product of the two. *)
Definition the_table : Models.Table :=
  [("Y", [1; 2; 3; 4]); ("x", [5; 6; 7; 8]); ("z", [0; 1; 0; 1]);
   ("g", [1; 1; 2; 2])]%float.

Definition the_encode (d : Models.Table) (e : Models.Effect)
  : outcome (Models.Encoding * list string) :=
  match e with
  | Models.Intercept =>
      match d with
      | [] => Raise ValueError
      | (_, col) :: _ =>
          Ok (Models.Dense (map (fun _ => [1%float]) col), ["Intercept"])
      end
  | Models.Predictor v None _ _ _ =>
      (col <- dict_getitem d v ;;
       Ok (Models.Dense (map (fun x => [x]) col), [v]))%py
  | Models.Predictor v (Some g) _ _ _ =>
      (col <- dict_getitem d v ;;
       by_ <- dict_getitem d g ;;
       Ok (Models.Dense (map (fun xg => [(fst xg * snd xg)%float]) (combine col by_)),
           [v]))%py
  end.

Definition the_default_prior (random : bool) (e : Models.Encoding) : Models.Prior :=
  {| Models.dist := if random then "HalfNormal" else "Normal";
     Models.args := [("mu", 0%float);
                     ("sd", fold_left Models.np_maximum_abs
                                      (concat (Models.columns_of e)) 1%float)] |}.

Definition the_fixed_terms_of (formula : string) : option string * list Models.Spec :=
  if formula =? "Y ~ x + z" then
    (Some "Y",
     [("Intercept", Models.Intercept);
      ("x", Models.Predictor "x" None false false false);
      ("z", Models.Predictor "z" None false false false)])
  else (None, []).

Definition the_random_terms_of (effect grouping : string) : list Models.Spec :=
  [(effect ++ "|" ++ grouping, Models.Predictor effect (Some grouping) true false false)].

(** The same model by formula and call by call, in another order. *)
Definition by_formula : outcome Models.Model :=
  Models.add_formula the_encode the_fixed_terms_of the_random_terms_of
    (Models.new_model the_table false) "Y ~ x + z" ["x|g"].

Definition the_calls : list Models.Call :=
  [Models.call_add_y "Y" "gaussian";
   Models.call_add_term "x" (Some "g") true false false;
   Models.call_add_term "z" None false false false;
   Models.call_add_term "x" None false false false;
   Models.call_add_intercept].

Definition by_calls : outcome Models.Model :=
  Models.incremental the_encode (Models.new_model the_table false) the_calls.

Definition or_empty (o : outcome Models.Model) : Models.Model :=
  match o with
  | Ok m => m
  | Raise _ => Models.new_model [] false
  end.

Definition built (o : outcome Models.Model) : Models.Built :=
  match Models.build the_default_prior (or_empty o) with
  | (_, Ok b) => b
  | (_, Raise _) => {| Models.design := []; Models.X := [] |}
  end.

(** A model whose predictor has missing values in three rows, as the test
    of missing values makes one, with and without silent dropping. *)
Definition with_gaps (dropna : bool) : Models.Model :=
  {| Models.table := the_table;
     Models.terms :=
       [("continuous",
         {| Models.name := "continuous"; Models.categorical := false;
            Models.random := false;
            Models.data := Models.Dense [[1]; [2]; [3]; [4]; [nan]; [6]; [nan];
                                         [8]; [nan]; [10]]%float;
            Models.levels := ["continuous"]; Models.prior := None |})];
     Models.y := None; Models.family := "gaussian"; Models.dropna := dropna |}.

End Sample.

(** * Properties *)

(** ** Strings, results and effects *)

Module PyFacts.
#[local] Open Scope py_scope.

Lemma length_append (a b : string) :
  String.length (a ++ b) = String.length a + String.length b.
Proof. induction a; cbn; auto. Qed.

Lemma take_append (a b : string) : take (String.length a) (a ++ b) = a.
Proof. induction a; cbn; [destruct b|]; auto. f_equal; auto. Qed.

Lemma strip_prefix_append (p s : string) : strip_prefix p (p ++ s) = Some s.
Proof.
  induction p; cbn; [now destruct s|]. now rewrite Ascii.eqb_refl.
Qed.

Lemma forall_chars_ext (p q : ascii -> bool) (s : string) :
  (forall c, p c = q c) -> forall_chars p s = forall_chars q s.
Proof. intros E. induction s; cbn; [reflexivity|]. now rewrite E, IHs. Qed.

Lemma endswith_refl (s : string) : endswith s s = true.
Proof.
  destruct s; cbn; [reflexivity|]. now rewrite Ascii.eqb_refl, String.eqb_refl.
Qed.

Lemma bind_Ok {A B} (x : outcome A) (f : A -> outcome B) (b : B) :
  Py.bind x f = Ok b -> exists a, x = Ok a /\ f a = Ok b.
Proof. destruct x; cbn; [eauto|discriminate]. Qed.

Lemma mbind_Ok {A B} (x : M A) (f : A -> M B) (w : list string) (b : B) :
  mbind x f = (w, Ok b) ->
  exists w1 a w2, x = (w1, Ok a) /\ f a = (w2, Ok b) /\ w = (w1 ++ w2)%list.
Proof.
  destruct x as [w1 [a|e]]; cbn; [|discriminate].
  destruct (f a) as [w2 r] eqn:E. intros [= <- ->]. now exists w1, a, w2.
Qed.

Lemma lift_Ok {A} (o : outcome A) (w : list string) (a : A) :
  lift o = (w, Ok a) -> o = Ok a /\ w = [].
Proof. unfold lift. now intros [= <- ->]. Qed.

Lemma ret_Ok {A} (a b : A) (w : list string) :
  ret a = (w, Ok b) -> a = b /\ w = [].
Proof. unfold ret. now intros [= <- ->]. Qed.

End PyFacts.

(** ** The matcher *)

Module ReFacts.
Import Re PyFacts.

Lemma consumed_append (a b : string) : consumed (a ++ b) b = a.
Proof.
  unfold consumed. rewrite length_append.
  replace (String.length a + String.length b - String.length b)
    with (String.length a) by lia.
  apply take_append.
Qed.

(** A greedy repetition that can take all of [p] and no more, and whose
    continuation then succeeds, succeeds with that. *)
Lemma star_greedy a k p s r :
  forall_chars (atom_ok a) p = true -> stops a s -> k s = Some r ->
  star a k (p ++ s) = Some r.
Proof.
  intros Hp Hs Hk. induction p as [|c p IH]; cbn in *.
  - destruct s as [|d s]; cbn in *; [assumption|]. now rewrite Hs.
  - apply andb_true_iff in Hp as [Hc Hp]. rewrite Hc, (IH Hp). reflexivity.
Qed.

Lemma run_group_plus whole n a p s g k r :
  p <> EmptyString -> forall_chars (atom_ok a) p = true -> stops a s ->
  k s ((n, p) :: g) = Some r ->
  run whole (Group n (Plus a)) (p ++ s) g k = Some r.
Proof.
  intros Hne Hp Hs Hk. destruct p as [|c p]; [congruence|].
  cbn in Hp. apply andb_true_iff in Hp as [Hc Hp].
  cbn [run append]. rewrite Hc.
  apply star_greedy; auto.
  change (String c (p ++ s)) with (String c p ++ s).
  now rewrite consumed_append.
Qed.

(** The equations of [run], one pattern at a time. *)
Lemma run_Seq w r1 r2 s g k :
  run w (Seq r1 r2) s g k = run w r1 s g (fun s' g' => run w r2 s' g' k).
Proof. reflexivity. Qed.

Lemma run_Eps w s g k : run w Eps s g k = k s g.
Proof. reflexivity. Qed.

Lemma run_Bol w g k : run w Bol w g k = k w g.
Proof. cbn. now rewrite Nat.eqb_refl. Qed.

Lemma run_Lit w c s g k : run w (One (Lit c)) (String c s) g k = k s g.
Proof. cbn. now rewrite Ascii.eqb_refl. Qed.

Lemma run_Opt w r s g k :
  run w (Opt r) s g k =
  match run w r s g k with Some res => Some res | None => k s g end.
Proof. reflexivity. Qed.

Lemma run_Group w n r s g k :
  run w (Group n r) s g k =
  run w r s g (fun s' g' => k s' ((n, consumed s s') :: g')).
Proof. reflexivity. Qed.

Lemma run_Backref w n t s g k :
  group g n = Some t -> run w (Backref n) (t ++ s) g k = k s g.
Proof. intros E. cbn. now rewrite E, strip_prefix_append. Qed.

Lemma run_Star w a s g k : run w (Star a) s g k = star a (fun s' => k s' g) s.
Proof. reflexivity. Qed.

(** [_sd$] matches only at [_sd] and at [_sd] before a final newline. *)
Lemma sd_eol_inv whole s g k r :
  run whole (Seq (text "_sd") Eol) s g k = Some r ->
  s = "_sd" \/ s = "_sd" ++ String newline EmptyString.
Proof.
  cbn [run text atom_ok].
  destruct s as [|c1 [|c2 [|c3 s]]]; try discriminate;
    try (destruct (Ascii.eqb c1 "_"); discriminate).
  - destruct (Ascii.eqb c1 "_"); [|discriminate].
    destruct (Ascii.eqb c2 "s"); discriminate.
  - destruct (Ascii.eqb_spec c1 "_"); [|discriminate].
    destruct (Ascii.eqb_spec c2 "s"); [|discriminate].
    destruct (Ascii.eqb_spec c3 "d"); [|discriminate]. subst.
    unfold at_eol. destruct s as [|c4 [|c5 s]]; try discriminate.
    + now left.
    + destruct (Ascii.eqb_spec c4 newline); [|discriminate]. subst. now right.
Qed.

Lemma star_sd_none whole g k rest :
  endswith rest "_sd" = false ->
  endswith rest ("_sd" ++ String newline EmptyString) = false ->
  star Dot (fun s' => run whole (Seq (text "_sd") Eol) s' g k) rest = None.
Proof.
  intros H1 H2.
  assert (tail : forall s, endswith s "_sd" = false ->
                   endswith s ("_sd" ++ String newline EmptyString) = false ->
                   run whole (Seq (text "_sd") Eol) s g k = None).
  { intros s E1 E2. destruct (run whole _ s g k) eqn:E; [|reflexivity].
    apply sd_eol_inv in E as [-> | ->]; now rewrite endswith_refl in *. }
  induction rest as [|c rest IH].
  - cbn [star]. now apply tail.
  - cbn [star]. rewrite (tail _ H1 H2).
    cbn [endswith] in H1, H2.
    apply orb_false_iff in H1 as [_ H1]. apply orb_false_iff in H2 as [_ H2].
    rewrite (IH H1 H2). now destruct (atom_ok Dot c).
Qed.

End ReFacts.

(** ** The name filter and the decoder of results.py *)

Module ResultsSpec.
Import Re Results PyFacts ReFacts.
#[local] Open Scope py_scope.

(** *** The first pattern of [_prettify_name] *)

Lemma re1_needs_prefix (s : string) :
  has_bu_prefix s = false -> re_match re1_pat s = None.
Proof.
  intros H. unfold re_match, re1_pat.
  cbn [run]. rewrite Nat.eqb_refl.
  destruct s as [|c [|d rest]]; cbn [run atom_ok existsb item_ok]; try reflexivity.
  - destruct (_ || _); reflexivity.
  - cbn [has_bu_prefix] in H. rewrite orb_false_r.
    destruct (Ascii.eqb c "b" || Ascii.eqb c "u"); [|reflexivity].
    cbn in H. rewrite H. reflexivity.
Qed.

Lemma prettify_no_match (self : PyMC3Results) (name : string) :
  re_match re1_pat name = None -> _prettify_name self name = Ok (Some name).
Proof. intros H. unfold _prettify_name. now rewrite H. Qed.

(** A name that the first pattern does not match, as is the case of every
    name that does not begin with [b_] or [u_], is returned unchanged,
    without an exception, whatever the model. *)
Lemma prettify_passes_through (self : PyMC3Results) (name : string) :
  has_bu_prefix name = false \/ re_match re1_pat name = None ->
  _prettify_name self name = Ok (Some name).
Proof.
  intros [H|H]; apply prettify_no_match; [now apply re1_needs_prefix|assumption].
Qed.

(** *** Fixed effects *)

(** The examples of the specification: [b_BMI] is decoded to [BMI], and an
    indexed name of the factor to the label of its level. *)
Example prettify_b_BMI :
  _prettify_name (Sample.fitted 1) "b_BMI" = Ok (Some "BMI").
Proof. reflexivity. Qed.

Example prettify_b_threecats :
  _prettify_name (Sample.fitted 1) "b_threecats__1" = Ok (Some "threecats[b]").
Proof. reflexivity. Qed.

(** C3: the name [b_S1] of a fixed effect whose term ends in a digit is not
    decoded to [S1]: the class [[^__\d+]] of the first pattern refuses the
    last character of the term, no pattern matches, and the name is returned
    as it is, whatever the model. *)
Theorem prettify_digit_suffix_passes_through (self : PyMC3Results) :
  _prettify_name self "b_S1" = Ok (Some "b_S1") /\
  _prettify_name self "b_S1__0" = Ok (Some "b_S1__0").
Proof. split; reflexivity. Qed.

(** *** Decoding again *)

(** A decoded name is decoded again when it has itself the form of a
    backend name: with the fixed terms [b_xy] and [xy], [b_b_xy] is decoded
    to [b_xy], and [b_xy] to [xy]. *)
Lemma decoded_name_decoded_again_counterexample :
  _prettify_name Sample.nested "b_b_xy" = Ok (Some "b_xy") /\
  _prettify_name Sample.nested "b_xy" = Ok (Some "xy") /\
  decode_again Sample.nested 1 "b_xy" <> Ok (Some "b_xy").
Proof. repeat split; try reflexivity. vm_compute. discriminate. Qed.

(** C5, amended: a name that the first pattern of the decoder does not
    match -- every name that does not begin with [b_] or [u_], as the
    decoded labels [BMI], [threecats[b]] or [1|item[0]] do not -- is a fixed
    point of the decoder: decoding it, any number of times, returns it. *)
Theorem decode_fixed_point (self : PyMC3Results) (name : string) :
  has_bu_prefix name = false \/ re_match re1_pat name = None ->
  forall n, decode_again self n name = Ok (Some name).
Proof.
  intros H n. induction n as [|n IH]; cbn [decode_again]; [reflexivity|].
  rewrite (prettify_passes_through self name H). cbn. exact IH.
Qed.

Lemma decode_fixed_point_witness :
  _prettify_name (Sample.fitted 1) "b_threecats__1" = Ok (Some "threecats[b]") /\
  decode_again (Sample.fitted 1) 2 "threecats[b]" = Ok (Some "threecats[b]").
Proof.
  split; [reflexivity|].
  apply (decode_fixed_point (Sample.fitted 1) "threecats[b]"). left. reflexivity.
Defined.

(** *** [_format] and [_filter_names] *)

Lemma not_bar_atom c : atom_ok (NoneOf [Ch "|"]) c = not_bar c.
Proof. cbn. now rewrite orb_false_r. Qed.

Lemma group_char_atom c : atom_ok (NoneOf [Ch "_"; Ch soh]) c = group_char c.
Proof. cbn. unfold group_char. now rewrite orb_false_r, negb_orb. Qed.

Lemma format_re_match effect grouping rest :
  effect <> EmptyString -> forall_chars not_bar effect = true ->
  grouping <> EmptyString -> forall_chars group_char grouping = true ->
  endswith rest "_sd" = false -> endswith rest ("_sd" ++ nl) = false ->
  re_match format_re ("u_" ++ effect ++ "|" ++ grouping ++ "_" ++ effect ++ rest)
  = Some [(2, grouping); (1, effect)].
Proof.
  intros He1 He2 Hg1 Hg2 Hr1 Hr2.
  unfold re_match, format_re.
  rewrite run_Seq, run_Bol, run_Seq. cbn [text append].
  rewrite run_Seq, run_Lit, run_Seq, run_Lit, run_Eps, run_Seq.
  apply run_group_plus; auto.
  - now rewrite (forall_chars_ext _ _ _ not_bar_atom).
  - reflexivity.
  - rewrite run_Seq, run_Lit, run_Seq.
    apply run_group_plus; auto.
    + now rewrite (forall_chars_ext _ _ _ group_char_atom).
    + reflexivity.
    + rewrite run_Seq, run_Lit, run_Seq, (run_Backref _ _ effect) by reflexivity.
      rewrite run_Opt, run_Group, run_Seq, run_Star.
      now rewrite star_sd_none.
Qed.

Lemma mem_In x l : mem x l = true <-> In x l.
Proof.
  unfold mem. rewrite existsb_exists. split.
  - intros (y & Hy & E). apply String.eqb_eq in E. now subst.
  - intros H. exists x. split; [assumption|apply String.eqb_refl].
Qed.

Lemma mem_false x l : mem x l = false <-> ~ In x l.
Proof. rewrite <- mem_In. now destruct (mem x l). Qed.

Lemma hidden_not_untransformed m tr x :
  internally_transformed m x = true ->
  ~ In x (untransformed_vars (__init__ m tr)).
Proof.
  unfold internally_transformed. intros H. apply andb_true_iff in H as [Hn Hc].
  apply negb_true_iff in Hn. cbn [__init__ untransformed_vars].
  intros Hin. apply filter_In in Hin as [_ Hin]. rewrite Hn in Hin. cbn in Hin.
  apply mem_In, filter_In in Hin as [_ Hin]. now rewrite Hc in Hin.
Qed.

(** C4, as stated: a name [u_<effect>|<group>_<group>] is not brought to
    [u_<effect>|<group>]; the pattern of [_format] asks for the effect, not
    the group, after the underscore. *)
Lemma format_repeated_group_counterexample :
  _format "u_x|subj_subj" <> "u_x|subj".
Proof. vm_compute. discriminate. Qed.

(** C4, amended: with [hide_transformed], no internally transformed name is
    among the names returned; [_format] brings a name
    [u_<effect>|<group>_<effect><rest>] to [u_<effect>|<group>], where
    [<effect>] is not empty and has no [|], [<group>] is not empty and has
    no [_] (and no chr(1)), and [<rest>] does not end in [_sd] (nor in [_sd]
    and a newline); and with [exclude_ranefs], no name is returned whose
    canonical form, less its two-character prefix, is the name of a random
    term. *)
Theorem filter_names_canonical (m : Model) (tr : MultiTrace)
  (x x' effect grouping rest : string) (exclude hide : bool) :
  (internally_transformed m x = true ->
   ~ In x (_filter_names (__init__ m tr) None exclude true)) /\
  (effect <> EmptyString -> forall_chars not_bar effect = true ->
   grouping <> EmptyString -> forall_chars group_char grouping = true ->
   endswith rest "_sd" = false -> endswith rest ("_sd" ++ nl) = false ->
   _format ("u_" ++ effect ++ "|" ++ grouping ++ "_" ++ effect ++ rest)
   = "u_" ++ effect ++ "|" ++ grouping) /\
  (mem (drop 2 (_format x')) (keys (random_terms m)) = true ->
   ~ In x' (_filter_names (__init__ m tr) None true hide)).
Proof.
  split; [|split].
  - intros H Hin. apply (hidden_not_untransformed m tr x H).
    unfold _filter_names in Hin. destruct exclude; [|assumption].
    now apply filter_In in Hin as [Hin _].
  - intros. unfold _format. rewrite format_re_match by assumption. reflexivity.
  - intros H Hin. unfold _filter_names in Hin.
    apply filter_In in Hin as [_ Hin]. cbn [model __init__] in Hin.
    now rewrite H in Hin.
Qed.

Lemma filter_names_canonical_witness :
  ~ In "u_threecats|site_threecats[0]_sd_log"
       (_filter_names (Sample.fitted 1) None false true) /\
  _format "u_threecats|site_threecats[0]_sd_log" = "u_threecats|site" /\
  ~ In "u_threecats|site_threecats[0]_sd_log"
       (_filter_names (Sample.fitted 1) None true false).
Proof.
  destruct (filter_names_canonical Sample.the_model (Sample.the_trace 1)
              "u_threecats|site_threecats[0]_sd_log"
              "u_threecats|site_threecats[0]_sd_log"
              "threecats" "site" "[0]_sd_log" false false) as (A & B & C).
  split; [|split].
  - apply A. reflexivity.
  - apply B; (reflexivity || discriminate).
  - apply C. reflexivity.
Defined.

(** *** Frames *)

Lemma column_names_drop {L} name (df df' : Frame L) :
  drop_column name df = Ok df' ->
  column_names df' = filter (fun c => negb (c =? name)) (column_names df).
Proof.
  unfold drop_column. destruct (mem name (column_names df)); [|discriminate].
  intros [= <-]. unfold column_names, keys. cbn.
  induction (columns df) as [|[c v] l IH]; cbn; [reflexivity|].
  destruct (c =? name); cbn; now rewrite IH.
Qed.

Lemma column_names_merge df right :
  column_names (merge df right) =
  (map (suffixed (column_names right) "_x") (column_names df) ++
   map (suffixed (column_names df) "_y") (column_names right))%list.
Proof.
  unfold merge, column_names, keys. cbn. rewrite map_app, !map_map. reflexivity.
Qed.

Lemma column_names_merge_fresh df right name :
  column_names right = [name] -> ~ In name (column_names df) ->
  column_names (merge df right) = (column_names df ++ [name])%list.
Proof.
  intros E H. rewrite column_names_merge, E. cbn [map]. f_equal.
  - rewrite <- (map_id (column_names df)) at 2. apply map_ext_in.
    intros c Hc. unfold suffixed. cbn. rewrite orb_false_r.
    destruct (String.eqb_spec c name); [subst; contradiction|reflexivity].
  - unfold suffixed. apply mem_false in H. now rewrite H.
Qed.

Lemma stat_frame_columns diag_name d right :
  stat_frame diag_name d = Ok right -> column_names right = [diag_name].
Proof.
  unfold stat_frame. intros H. apply bind_Ok in H as (cells & _ & H).
  now injection H as <-.
Qed.

Lemma append_diagnostic_inv self dt b df diag df' :
  append_diagnostic self dt b df diag = Ok df' ->
  exists right, column_names right = [snd diag] /\ df' = merge df right.
Proof.
  unfold append_diagnostic. intros H.
  apply bind_Ok in H as (st & _ & H).
  apply bind_Ok in H as (d & _ & H).
  apply bind_Ok in H as (right & Hr & H).
  injection H as <-. exists right. split; [|reflexivity].
  now apply stat_frame_columns in Hr.
Qed.

Lemma append_diagnostic_columns self dt b df diag df' :
  append_diagnostic self dt b df diag = Ok df' ->
  ~ In (snd diag) (column_names df) ->
  column_names df' = (column_names df ++ [snd diag])%list.
Proof.
  intros H Hn. apply append_diagnostic_inv in H as (right & Hr & ->).
  now apply column_names_merge_fresh.
Qed.

Lemma append_diagnostic_keeps self dt b df diag df' c :
  append_diagnostic self dt b df diag = Ok df' ->
  c <> snd diag -> In c (column_names df) -> In c (column_names df').
Proof.
  intros H Hc Hin. apply append_diagnostic_inv in H as (right & Hr & ->).
  rewrite column_names_merge, in_app_iff. left.
  apply in_map_iff. exists c. split; [|assumption].
  unfold suffixed. rewrite Hr. cbn. rewrite orb_false_r.
  now destruct (String.eqb_spec c (snd diag)).
Qed.

(** *** The stages of [summary] *)

Lemma summary_inv pm self b ex names hide mc kw w df :
  summary pm self b ex names hide mc kw = (w, Ok df) ->
  exists base idx df1 wd wr,
    df_summary pm (trace self) b (names_or_filtered self names ex hide) kw = Ok base /\
    for_each (_prettify_name self) (index base) = Ok idx /\
    diagnostics_stage pm self b (names_or_filtered self names ex hide)
      (set_index base idx) = (wd, Ok df1) /\
    (if negb mc then drop_column "mc_error" df1 else Ok df1) = Ok df /\
    binomial_reminder self = (wr, Ok tt) /\
    w = (wd ++ wr)%list.
Proof.
  unfold summary. intros H.
  apply mbind_Ok in H as (w1 & base & w2 & H1 & H & ->).
  apply lift_Ok in H1 as [H1 ->].
  apply mbind_Ok in H as (w1 & idx & w3 & H2 & H & ->).
  apply lift_Ok in H2 as [H2 ->].
  apply mbind_Ok in H as (wd & df1 & w4 & H3 & H & ->).
  apply mbind_Ok in H as (w5 & df2 & w6 & H4 & H & ->).
  apply mbind_Ok in H as (wr & u & w7 & H5 & H & ->).
  apply ret_Ok in H as [-> ->]. destruct u.
  exists base, idx, df1, wd, wr. repeat split; try assumption.
  - destruct mc; cbn in *.
    + now apply ret_Ok in H4 as [-> _].
    + now apply lift_Ok in H4 as [-> _].
  - destruct mc; cbn in H4.
    + apply ret_Ok in H4 as [_ ->]. cbn. now rewrite app_nil_r.
    + apply lift_Ok in H4 as [_ ->]. cbn. now rewrite app_nil_r.
Qed.

Lemma diagnostics_stage_many pm self b names df wd df1 :
  1 < nchains (trace self) ->
  ~ In "effective_n" (column_names df) -> ~ In "gelman_rubin" (column_names df) ->
  diagnostics_stage pm self b names df = (wd, Ok df1) ->
  column_names df1 = (column_names df ++ ["effective_n"; "gelman_rubin"])%list /\
  wd = [].
Proof.
  intros Hn He Hg. unfold diagnostics_stage.
  apply Nat.ltb_lt in Hn. rewrite Hn. intros H.
  apply lift_Ok in H as [H ->]. split; [|reflexivity].
  cbn [append_diagnostics] in H.
  apply bind_Ok in H as (d1 & H1 & H).
  apply bind_Ok in H as (d2 & H2 & H). injection H as <-.
  apply append_diagnostic_columns in H1; [|assumption].
  apply append_diagnostic_columns in H2.
  - rewrite H2, H1, <- app_assoc. reflexivity.
  - rewrite H1. cbn [snd]. rewrite in_app_iff.
    intros [?|[?|[]]]; [contradiction|discriminate].
Qed.

Lemma diagnostics_stage_single pm self b names df wd df1 :
  nchains (trace self) < 2 ->
  diagnostics_stage pm self b names df = (wd, Ok df1) ->
  df1 = df /\ wd = [no_diagnostics_warning].
Proof.
  intros Hn. unfold diagnostics_stage.
  assert (E : (1 <? nchains (trace self))%nat = false) by (apply Nat.ltb_ge; lia).
  rewrite E. cbn. now intros [= <- <-].
Qed.

Lemma kept_columns_app mc l :
  kept_columns mc (l ++ ["effective_n"; "gelman_rubin"])%list
  = (kept_columns mc l ++ ["effective_n"; "gelman_rubin"])%list.
Proof. destruct mc; cbn; [reflexivity|]. now rewrite filter_app. Qed.

Lemma kept_columns_of {L} mc (df1 df : Frame L) :
  (if negb mc then drop_column "mc_error" df1 else Ok df1) = Ok df ->
  column_names df = kept_columns mc (column_names df1).
Proof.
  destruct mc; cbn.
  - now intros [= ->].
  - apply column_names_drop.
Qed.

Lemma kept_columns_diag mc l c :
  c = "effective_n" \/ c = "gelman_rubin" -> In c (kept_columns mc l) <-> In c l.
Proof.
  intros Hc. destruct mc; cbn; [reflexivity|].
  rewrite filter_In. split; [tauto|]. intros H. split; [assumption|].
  now destruct Hc as [-> | ->].
Qed.

(** C6: [summary] appends the columns [effective_n] and [gelman_rubin] to
    those of the backend's table exactly when the trace has at least two
    chains; with fewer it warns that several chains are required, and the
    table it returns has neither column. *)
Theorem summary_diagnostics pm self burn_in ex names hide mc kw base w df :
  df_summary pm (trace self) burn_in (names_or_filtered self names ex hide) kw
    = Ok base ->
  ~ In "effective_n" (column_names base) ->
  ~ In "gelman_rubin" (column_names base) ->
  summary pm self burn_in ex names hide mc kw = (w, Ok df) ->
  (2 <= nchains (trace self) ->
     column_names df =
       (kept_columns mc (column_names base) ++ ["effective_n"; "gelman_rubin"])%list) /\
  (nchains (trace self) < 2 ->
     column_names df = kept_columns mc (column_names base) /\
     In no_diagnostics_warning w /\
     ~ In "effective_n" (column_names df) /\ ~ In "gelman_rubin" (column_names df)) /\
  (In "effective_n" (column_names df) /\ In "gelman_rubin" (column_names df)
     <-> 2 <= nchains (trace self)).
Proof.
  intros Hb He Hg H.
  apply summary_inv in H as (base' & idx & df1 & wd & wr & H1 & _ & H3 & H4 & _ & ->).
  rewrite Hb in H1. injection H1 as <-.
  apply kept_columns_of in H4.
  assert (many : 2 <= nchains (trace self) ->
     column_names df =
       (kept_columns mc (column_names base) ++ ["effective_n"; "gelman_rubin"])%list).
  { intros Hn. apply diagnostics_stage_many in H3 as [H3 _]; [|lia|assumption..].
    rewrite H4, H3. apply kept_columns_app. }
  assert (single : nchains (trace self) < 2 ->
     column_names df = kept_columns mc (column_names base) /\
     In no_diagnostics_warning (wd ++ wr) /\
     ~ In "effective_n" (column_names df) /\ ~ In "gelman_rubin" (column_names df)).
  { intros Hn. apply diagnostics_stage_single in H3 as [-> ->]; [|assumption].
    rewrite H4. repeat split.
    - now left.
    - now rewrite kept_columns_diag by auto.
    - now rewrite kept_columns_diag by auto. }
  repeat split; try assumption; try (apply single; assumption).
  - intros [Hin _]. destruct (le_lt_dec 2 (nchains (trace self))) as [|l]; [assumption|].
    now apply single in l as (_ & _ & ? & _).
  - apply many in H. rewrite H, in_app_iff. right. now left.
  - apply many in H. rewrite H, in_app_iff. right. right. now left.
Qed.

Ltac not_among :=
  let H := fresh in
  intros H; vm_compute in H;
  repeat (destruct H as [H|H]; [discriminate H|]); exact H.

Lemma summary_diagnostics_witness :
  column_names (Sample.table_of (Sample.the_summary 2))
    = ["mean"; "sd"; "hpd_2.5"; "hpd_97.5"; "effective_n"; "gelman_rubin"] /\
  column_names (Sample.table_of (Sample.the_summary 1))
    = ["mean"; "sd"; "hpd_2.5"; "hpd_97.5"] /\
  In no_diagnostics_warning (fst (Sample.the_summary 1)).
Proof.
  destruct (summary_diagnostics Sample.the_backend (Sample.fitted 2)
              0 true None true false [] (Sample.the_base 2)
              (fst (Sample.the_summary 2)) (Sample.table_of (Sample.the_summary 2)))
    as (A & _ & _);
    [vm_compute; reflexivity|not_among|not_among|vm_compute; reflexivity|].
  destruct (summary_diagnostics Sample.the_backend (Sample.fitted 1)
              0 true None true false [] (Sample.the_base 1)
              (fst (Sample.the_summary 1)) (Sample.table_of (Sample.the_summary 1)))
    as (_ & B & _);
    [vm_compute; reflexivity|not_among|not_among|vm_compute; reflexivity|].
  assert (two : 2 <= nchains (trace (Sample.fitted 2))) by (vm_compute; lia).
  assert (one : nchains (trace (Sample.fitted 1)) < 2) by (vm_compute; lia).
  destruct (B one) as (B1 & B2 & _).
  split; [|split].
  - etransitivity; [exact (A two)|]. vm_compute. reflexivity.
  - etransitivity; [exact B1|]. vm_compute. reflexivity.
  - exact B2.
Defined.

(** C10: with [mc_error=False], its default, the table [summary] returns has
    no column [mc_error], whatever the trace and the other arguments; with
    [mc_error=True] the column of the backend's table is kept. *)
Theorem summary_mc_error pm self burn_in ex names hide kw :
  (forall w df,
     summary pm self burn_in ex names hide false kw = (w, Ok df) ->
     ~ In "mc_error" (column_names df)) /\
  (forall base w df,
     df_summary pm (trace self) burn_in (names_or_filtered self names ex hide) kw
       = Ok base ->
     In "mc_error" (column_names base) ->
     summary pm self burn_in ex names hide true kw = (w, Ok df) ->
     In "mc_error" (column_names df)).
Proof.
  split.
  - intros w df H.
    apply summary_inv in H as (base & idx & df1 & wd & wr & _ & _ & _ & H4 & _ & _).
    apply kept_columns_of in H4. rewrite H4. cbn. rewrite filter_In.
    intros [_ E]. discriminate.
  - intros base w df Hb Hin H.
    apply summary_inv in H as (base' & idx & df1 & wd & wr & H1 & _ & H3 & H4 & _ & _).
    rewrite Hb in H1. injection H1 as <-. cbn in H4. injection H4 as <-.
    unfold diagnostics_stage in H3.
    destruct (1 <? nchains (trace self))%nat.
    + apply lift_Ok in H3 as [H3 _]. cbn [append_diagnostics] in H3.
      apply bind_Ok in H3 as (d1 & H1 & H3).
      apply bind_Ok in H3 as (d2 & H2 & H3). injection H3 as <-.
      eapply append_diagnostic_keeps; [exact H2|discriminate|].
      eapply append_diagnostic_keeps; [exact H1|discriminate|exact Hin].
    + cbn in H3. now injection H3 as _ <-.
Qed.

Lemma summary_mc_error_witness :
  ~ In "mc_error" (column_names (Sample.table_of (Sample.the_summary 2))) /\
  In "mc_error"
     (column_names (Sample.table_of (Sample.the_summary_with_mc_error 2))).
Proof.
  destruct (summary_mc_error Sample.the_backend (Sample.fitted 2)
              0 true None true []) as (A & B).
  split.
  - apply (A (fst (Sample.the_summary 2))). vm_compute. reflexivity.
  - apply (B (Sample.the_base 2) (fst (Sample.the_summary_with_mc_error 2))).
    + vm_compute. reflexivity.
    + vm_compute. tauto.
    + vm_compute. reflexivity.
Defined.

(** *** The reminder for binomial models *)

Lemma concat_singletons {A} (l : list A) : concat (map (fun x => [x]) l) = l.
Proof. induction l; cbn; congruence. Qed.

Lemma next_index_first p l i x k :
  nth_error l i = Some x -> p x = true ->
  (forall j xj, j < i -> nth_error l j = Some xj -> p xj = false) ->
  next_index p l k = Ok (k + i).
Proof.
  revert i k. induction l as [|a l IH]; intros i k Hi Hx Hlt.
  - now destruct i.
  - destruct i as [|i]; cbn in *.
    + injection Hi as ->. rewrite Hx. f_equal. lia.
    + rewrite (Hlt 0 a) by (lia || reflexivity).
      rewrite (IH i (S k) Hi Hx).
      * f_equal. lia.
      * intros j xj Hj. apply (Hlt (S j)). lia.
Qed.

Lemma labelled_absent (col : Series) k :
  ~ In k (map fst (rows col)) -> labelled k col = [].
Proof.
  unfold labelled. induction (rows col) as [|[l a] rs IH]; cbn; [reflexivity|].
  intros H. destruct (Nat.eqb_spec l k) as [->|_].
  - destruct H. now left.
  - apply IH. intros Hin. apply H. now right.
Qed.

Lemma labelled_unique (col : Series) k v :
  NoDup (map fst (rows col)) -> In (k, v) (rows col) -> labelled k col = [(k, v)].
Proof.
  unfold labelled. induction (rows col) as [|[l a] rs IH]; cbn; [contradiction|].
  intros Hnd Hin. inversion Hnd as [|? ? Hl Hrs]; subst.
  destruct Hin as [[= -> ->]|Hin].
  - rewrite Nat.eqb_refl. f_equal.
    clear IH Hnd Hrs. induction rs as [|[l a] rs IH]; cbn; [reflexivity|].
    destruct (Nat.eqb_spec l k) as [->|_].
    + destruct Hl. now left.
    + apply IH. intros Hin. apply Hl. now right.
  - destruct (Nat.eqb_spec l k) as [->|_]; [|now apply IH].
    destruct Hl. apply in_map_iff. now exists (k, v).
Qed.

(** Up to the look-up in the data frame: the reminder asks the response's
    column for the row labelled with the position of the first event. *)
Lemma binomial_reminder_lookup self yt top ys col i x :
  family_name (model self) = "binomial" ->
  y (model self) = Some yt ->
  data yt = map (fun x => [x]) ys ->
  np_max (data yt) = Ok top -> (top <? single_trial_bound)%float = true ->
  nth_error ys i = Some x -> is_event x = true ->
  (forall j xj, j < i -> nth_error ys j = Some xj -> is_event xj = false) ->
  assoc (frame (model self)) (name yt) = Some col ->
  binomial_reminder self =
  (v <~ lift (series_getitem col i) ;; warn (reminder yt (str_selection col v))).
Proof.
  intros Hf Hy Hd Hmax Htop Hi Hx Hfirst Hcol.
  unfold binomial_reminder. rewrite Hf, Hy.
  cbn [String.eqb Ascii.eqb Bool.eqb attr lift mbind].
  rewrite Hmax. cbn [mbind app]. rewrite Htop.
  rewrite Hd, concat_singletons.
  rewrite (next_index_first _ ys i x 0 Hi Hx Hfirst). cbn [lift mbind app Nat.add].
  unfold dict_getitem. rewrite Hcol. cbn [mbind app].
  destruct (series_getitem col i); reflexivity.
Qed.

(** C7: for a binomial model whose encoded response, a column [ys], has its
    maximum below 1.01 and its first value above 0.99 at position [i], the
    reminder of [summary], and of [plot] unless it is asked for the priors,
    does not name the value of the data frame at row [i]: it names the
    value [v] of the row whose label is [i], wherever that row is; and when
    no row is labelled [i], neither function returns.  (The row labels are
    distinct.) *)
Theorem binomial_reminder_reads_row_label pm self yt top ys col i x :
  family_name (model self) = "binomial" ->
  y (model self) = Some yt ->
  data yt = map (fun x => [x]) ys ->
  np_max (data yt) = Ok top -> (top <? single_trial_bound)%float = true ->
  nth_error ys i = Some x -> is_event x = true ->
  (forall j xj, j < i -> nth_error ys j = Some xj -> is_event xj = false) ->
  assoc (frame (model self)) (name yt) = Some col ->
  NoDup (map fst (rows col)) ->
  (forall v, In (i, v) (rows col) ->
     (forall burn_in ex names hide mc kw w df,
        summary pm self burn_in ex names hide mc kw = (w, Ok df) ->
        exists w0, w = (w0 ++ [reminder yt (str v)])%list) /\
     (forall burn_in names annotate ex hide kind kw w ax,
        kind <> "priors" ->
        plot pm self burn_in names annotate ex hide kind kw = (w, Ok ax) ->
        exists w0, w = (w0 ++ [reminder yt (str v)])%list)) /\
  (~ In i (map fst (rows col)) ->
     (forall burn_in ex names hide mc kw w df,
        summary pm self burn_in ex names hide mc kw <> (w, Ok df)) /\
     (forall burn_in names annotate ex hide kind kw w ax,
        kind <> "priors" ->
        plot pm self burn_in names annotate ex hide kind kw <> (w, Ok ax))).
Proof.
  intros Hf Hy Hd Hmax Htop Hi Hx Hfirst Hcol Hnd.
  pose proof (binomial_reminder_lookup self yt top ys col i x
                Hf Hy Hd Hmax Htop Hi Hx Hfirst Hcol) as R.
  split.
  - intros v Hv. unfold series_getitem in R.
    rewrite (labelled_unique col i v Hnd Hv) in R. cbn in R. split.
    + intros burn_in ex names hide mc kw w df H.
      apply summary_inv in H as (_ & _ & _ & wd & wr & _ & _ & _ & _ & H5 & ->).
      rewrite R in H5. injection H5 as <-. now exists wd.
    + intros burn_in names annotate ex hide kind kw w ax Hk H.
      unfold plot in H. apply String.eqb_neq in Hk. rewrite Hk in H.
      apply mbind_Ok in H as (w1 & ax' & w2 & _ & H & ->).
      rewrite R in H. cbn in H. injection H as <- _. now exists w1.
  - intros Hno. unfold series_getitem in R.
    rewrite (labelled_absent col i Hno) in R. cbn in R. split.
    + intros burn_in ex names hide mc kw w df H.
      apply summary_inv in H as (_ & _ & _ & wd & wr & _ & _ & _ & _ & H5 & _).
      rewrite R in H5. discriminate.
    + intros burn_in names annotate ex hide kind kw w ax Hk H.
      unfold plot in H. apply String.eqb_neq in Hk. rewrite Hk in H.
      apply mbind_Ok in H as (w1 & ax' & w2 & _ & H & _).
      rewrite R in H. discriminate.
Qed.

(** Rows labelled 1, 2, 3 with the values no, yes, no, coded 0, 1, 0: the
    first event is at position 1, and the reminder names [no], the value of
    the row labelled 1. *)
Lemma binomial_reminder_reads_row_label_witness :
  (exists w0, fst (Sample.later_summary 1)
              = (w0 ++ ["Modeling the probability that outcome=='no'"])%list) /\
  (exists w0, fst (Sample.later_plot 1)
              = (w0 ++ ["Modeling the probability that outcome=='no'"])%list).
Proof.
  destruct (binomial_reminder_reads_row_label Sample.the_backend (Sample.later 1)
              Sample.later_response 1%float [0; 1; 0]%float
              Sample.later_outcomes 1 1%float) as (A & _);
    try (vm_compute; reflexivity).
  - intros [|j] xj Hj E; [now injection E as <-|lia].
  - repeat constructor; cbn; intuition discriminate.
  - destruct (A (PyStr "no")) as (S & P); [left; reflexivity|]. split.
    + apply (S 0 true None true false [] _ (Sample.table_of (Sample.later_summary 1))).
      vm_compute. reflexivity.
    + apply (P 0 None true false true "trace" [] _ (Sample.axes_of (Sample.later_plot 1))).
      * discriminate.
      * vm_compute. reflexivity.
Defined.

End ResultsSpec.

(** ** The decoder, the filter and the tables, rule by rule *)

Module DecoderSpec.
Import Re Results Shapes PyFacts ReFacts ResultsSpec.
#[local] Open Scope py_scope.

(** *** Strings, and how far the matcher reads *)

Lemma append_assoc (a b c : string) : (a ++ b) ++ c = a ++ (b ++ c).
Proof. induction a; cbn; congruence. Qed.


Lemma is_suffix_refl s : is_suffix s s.
Proof. now exists EmptyString. Qed.

Lemma is_suffix_trans a b c : is_suffix a b -> is_suffix b c -> is_suffix a c.
Proof. intros [p ->] [q ->]. exists (q ++ p). now rewrite append_assoc. Qed.

Lemma is_suffix_cons c s : is_suffix s (String c s).
Proof. now exists (String c EmptyString). Qed.

Lemma strip_prefix_Some p s s' : strip_prefix p s = Some s' -> s = p ++ s'.
Proof.
  revert s. induction p as [|a p IH]; intros s; cbn.
  - now intros [= ->].
  - destruct s as [|b s]; [discriminate|].
    destruct (Ascii.eqb_spec a b); [|discriminate]. subst. intros H. now rewrite (IH _ H).
Qed.

Lemma star_suffix a k s res :
  star a k s = Some res -> exists s', is_suffix s' s /\ k s' = Some res.
Proof.
  induction s as [|c s IH]; cbn.
  - intros H. exists EmptyString. split; [apply is_suffix_refl|assumption].
  - destruct (atom_ok a c).
    + destruct (star a k s) eqn:E.
      * intros [= <-]. destruct (IH eq_refl) as (s' & Hs & Hk).
        exists s'. split; [|assumption]. eapply is_suffix_trans; [eassumption|apply is_suffix_cons].
      * intros H. exists (String c s). split; [apply is_suffix_refl|assumption].
    + intros H. exists (String c s). split; [apply is_suffix_refl|assumption].
Qed.

(** The matcher only moves forward: a successful run hands its continuation
    a suffix of what it was given. *)
Lemma run_suffix w r : forall s g k res,
  run w r s g k = Some res ->
  exists s' g', is_suffix s' s /\ k s' g' = Some res.
Proof.
  induction r as [| | |a|r1 IH1 r2 IH2|a|a|r IH|n r IH|n]; intros s g k res; cbn [run].
  - intros H. exists s, g. split; [apply is_suffix_refl|assumption].
  - destruct (Nat.eqb _ _); [|discriminate].
    intros H. exists s, g. split; [apply is_suffix_refl|assumption].
  - destruct (at_eol s); [|discriminate].
    intros H. exists s, g. split; [apply is_suffix_refl|assumption].
  - destruct s as [|c s]; [discriminate|]. destruct (atom_ok a c); [|discriminate].
    intros H. exists s, g. split; [apply is_suffix_cons|assumption].
  - intros H. apply IH1 in H as (s1 & g1 & S1 & H). apply IH2 in H as (s2 & g2 & S2 & H).
    exists s2, g2. split; [eapply is_suffix_trans; eassumption|assumption].
  - intros H. apply star_suffix in H as (s' & Hs & H). now exists s', g.
  - destruct s as [|c s]; [discriminate|]. destruct (atom_ok a c); [|discriminate].
    intros H. apply star_suffix in H as (s' & Hs & H). exists s', g.
    split; [|assumption]. eapply is_suffix_trans; [eassumption|apply is_suffix_cons].
  - destruct (run w r s g k) eqn:E.
    + intros [= <-]. now apply IH in E.
    + intros H. exists s, g. split; [apply is_suffix_refl|assumption].
  - intros H. apply IH in H as (s' & g' & Hs & H). eauto.
  - destruct (group g n) as [t|]; [|discriminate].
    destruct (strip_prefix t s) as [s'|] eqn:E; [|discriminate].
    intros H. exists s', g. split; [|assumption]. exists t. now apply strip_prefix_Some.
Qed.

(** A greedy repetition that runs to the end of [p ++ q] gives characters
    back until its continuation succeeds. *)
Lemma star_all_fail a k q :
  forall_chars (atom_ok a) q = true ->
  (forall q1 q2, q = q1 ++ q2 -> q1 <> EmptyString -> k q2 = None) ->
  star a k q = k q.
Proof.
  induction q as [|c q IH]; intros Hq Hk; [reflexivity|].
  cbn in *. apply andb_true_iff in Hq as [Hc Hq]. rewrite Hc.
  rewrite IH; auto.
  - rewrite (Hk (String c EmptyString) q); [reflexivity|reflexivity|discriminate].
  - intros q1 q2 -> Hne. apply (Hk (String c q1) q2); [reflexivity|discriminate].
Qed.

Lemma star_backtrack a k p q r :
  forall_chars (atom_ok a) p = true -> forall_chars (atom_ok a) q = true ->
  (forall q1 q2, q = q1 ++ q2 -> q1 <> EmptyString -> k q2 = None) ->
  k q = Some r ->
  star a k (p ++ q) = Some r.
Proof.
  intros Hp Hq Hk Hr. induction p as [|c p IH]; cbn in *.
  - now rewrite star_all_fail.
  - apply andb_true_iff in Hp as [Hc Hp]. now rewrite Hc, IH.
Qed.

Lemma forall_chars_app p s q :
  forall_chars p (s ++ q) = forall_chars p s && forall_chars p q.
Proof. induction s; cbn; [reflexivity|]. now rewrite IHs, andb_assoc. Qed.


(** *** The first pattern *)

Lemma term_end_atom c : atom_ok tail_class c = term_end c.
Proof.
  cbn. unfold term_end. rewrite orb_false_r.
  destruct (Ascii.eqb c "_"), (is_digit c), (Ascii.eqb c "+"); reflexivity.
Qed.

Lemma is_digit_dot c : is_digit c = true -> dot_ok c = true.
Proof.
  unfold dot_ok. destruct (Ascii.eqb_spec c newline); [subst; discriminate|reflexivity].
Qed.

Lemma index_char_dot c : index_char c = true -> atom_ok Dot c = true.
Proof.
  unfold index_char. intros H. apply orb_true_iff in H as [H|H].
  - apply Ascii.eqb_eq in H. now subst.
  - now apply is_digit_dot.
Qed.

Lemma index_char_not_end c : index_char c = true -> atom_ok tail_class c = false.
Proof.
  rewrite term_end_atom. unfold index_char, term_end.
  destruct (Ascii.eqb c "_"), (is_digit c); cbn; congruence.
Qed.

Lemma forall_chars_impl (p q : ascii -> bool) s :
  (forall c, p c = true -> q c = true) ->
  forall_chars p s = true -> forall_chars q s = true.
Proof.
  intros I. induction s; cbn; [reflexivity|].
  intros H. apply andb_true_iff in H as [H1 H2]. now rewrite (I _ H1), IHs.
Qed.

Lemma run_bu_prefix w x rest g k :
  x = "b"%char \/ x = "u"%char ->
  run w (Group 1 (Seq (One (OneOf [Ch "b"; Ch "u"])) (One (Lit "_"))))
      (String x (String "_" rest)) g k
  = k rest ((1, String x (String "_" EmptyString)) :: g).
Proof.
  intros Hx. rewrite run_Group, run_Seq.
  assert (E : atom_ok (OneOf [Ch "b"; Ch "u"]) x = true) by (destruct Hx; now subst).
  cbn [run]. rewrite E.
  change (String x (String "_" rest)) with (String x (String "_" EmptyString) ++ rest).
  now rewrite consumed_append.
Qed.

(** Group 2 of the first pattern: [.+] runs to the end and gives back the
    index, [[^__\d+]+] takes the last character of the term. *)
Lemma run_term_group w p c tail g k r :
  p <> EmptyString -> forall_chars dot_ok p = true ->
  dot_ok c = true -> term_end c = true ->
  forall_chars index_char tail = true ->
  k tail ((2, p ++ String c EmptyString) :: g) = Some r ->
  run w (Group 2 (Seq (Plus Dot) (Plus tail_class))) (p ++ String c tail) g k = Some r.
Proof.
  intros Hne Hp Hc He Ht Hk.
  destruct p as [|c0 p]; [congruence|]. cbn in Hp. apply andb_true_iff in Hp as [Hc0 Hp].
  rewrite run_Group, run_Seq. cbn [run append].
  change (atom_ok Dot c0) with (dot_ok c0). rewrite Hc0.
  assert (stop : forall s, forall_chars index_char s = true -> stops tail_class s).
  { intros [|d s]; cbn; [trivial|]. intros H. apply andb_true_iff in H as [H _].
    now apply index_char_not_end. }
  apply star_backtrack.
  - exact Hp.
  - cbn [forall_chars]. change (atom_ok Dot c) with (dot_ok c). rewrite Hc. cbn [andb].
    revert Ht. apply forall_chars_impl, index_char_dot.
  - intros q1 q2 E Hq1. destruct q1 as [|d q1]; [congruence|].
    cbn in E. injection E as _ E. subst tail.
    rewrite forall_chars_app in Ht. apply andb_true_iff in Ht as [_ Ht].
    destruct q2 as [|d2 q2]; [reflexivity|]. cbn [run].
    cbn in Ht. apply andb_true_iff in Ht as [Hd _].
    now rewrite (index_char_not_end _ Hd).
  - cbn [run]. rewrite term_end_atom, He.
    refine (star_greedy tail_class _ EmptyString tail r eq_refl (stop _ Ht) _).
    replace (String c0 (p ++ String c tail))
      with ((String c0 p ++ String c EmptyString) ++ tail)
      by (cbn; now rewrite append_assoc).
    now rewrite consumed_append.
Qed.

Lemma re1_plain x p c :
  x = "b"%char \/ x = "u"%char ->
  p <> EmptyString -> forall_chars dot_ok p = true ->
  dot_ok c = true -> term_end c = true ->
  re_match re1_pat (String x (String "_" (p ++ String c EmptyString)))
  = Some [(2, p ++ String c EmptyString); (1, String x (String "_" EmptyString))].
Proof.
  intros Hx Hne Hp Hc He. unfold re_match, re1_pat.
  rewrite run_Seq, run_Bol, run_Seq, run_bu_prefix by assumption.
  rewrite run_Seq. apply run_term_group; auto.
Qed.


(** *** Re2, re3 refusing *)
Lemma not_bar_suffix t c s : is_suffix (String c s) t -> forall_chars not_bar t = true -> not_bar c = true.
Proof.
  intros [p ->] H. rewrite forall_chars_app in H. apply andb_true_iff in H as [_ H].
  cbn in H. now apply andb_true_iff in H as [H _].
Qed.

Lemma re2_needs_bar t : forall_chars not_bar t = true -> re_match re2_pat t = None.
Proof.
  intros Ht. destruct (re_match re2_pat t) as [res|] eqn:E; [exfalso|reflexivity].
  unfold re_match, re2_pat in E. rewrite run_Seq, run_Bol, run_Seq in E.
  apply run_suffix in E as (s1 & g1 & S1 & E). rewrite run_Seq in E. cbn [run] in E.
  destruct s1 as [|c s1]; [discriminate|].
  pose proof (not_bar_suffix t c s1 S1 Ht) as Hc. unfold not_bar in Hc.
  cbn [atom_ok] in E. now destruct (Ascii.eqb c "|").
Qed.

Lemma endswith_suffix s' s : is_suffix s' s -> endswith s s' = true.
Proof.
  intros [p ->]. induction p as [|c p IH]; cbn [append].
  - apply endswith_refl.
  - cbn [endswith]. rewrite IH. apply orb_true_r.
Qed.

Lemma endswith_is_suffix s t : endswith s t = true -> is_suffix t s.
Proof.
  induction s as [|c s IH]; cbn [endswith]; intros H; apply orb_true_iff in H as [H|H].
  - apply String.eqb_eq in H. subst. apply is_suffix_refl.
  - discriminate.
  - apply String.eqb_eq in H. subst. apply is_suffix_refl.
  - eapply is_suffix_trans; [apply IH, H|apply is_suffix_cons].
Qed.

Lemma re3_needs_sd t :
  endswith t "_sd" = false -> endswith t ("_sd" ++ nl) = false ->
  re_match re3_pat t = None.
Proof.
  intros H1 H2. destruct (re_match re3_pat t) as [res|] eqn:E; [exfalso|reflexivity].
  unfold re_match, re3_pat in E. rewrite run_Seq, run_Bol, run_Seq in E.
  apply run_suffix in E as (s1 & g1 & S1 & E). rewrite run_Seq in E.
  apply run_suffix in E as (s2 & g2 & S2 & E). rewrite run_Seq in E.
  apply run_suffix in E as (s3 & g3 & S3 & E). rewrite run_Seq in E.
  apply run_suffix in E as (s4 & g4 & S4 & E).
  assert (S : is_suffix s4 t) by (repeat (eapply is_suffix_trans; [eassumption|]); apply is_suffix_refl).
  apply endswith_suffix in S.
  unfold nl in H2. apply sd_eol_inv in E as [-> | ->]; congruence.
Qed.

Lemma no_newline_tail s q :
  forall_chars dot_ok s = true -> endswith s (q ++ nl) = false.
Proof.
  intros H. destruct (endswith s (q ++ nl)) eqn:E; [exfalso|reflexivity].
  apply endswith_is_suffix in E as [p ->].
  rewrite !forall_chars_app in H. apply andb_true_iff in H as [_ H].
  apply andb_true_iff in H as [_ H]. discriminate.
Qed.

(** *** Fixed effects and random intercepts *)

Lemma well_formed_term_inv p c :
  well_formed_term p c = true ->
  p <> EmptyString /\ forall_chars dot_ok p = true /\ dot_ok c = true /\
  term_end c = true /\ forall_chars not_bar (p ++ String c EmptyString) = true /\
  forall_chars dot_ok (p ++ String c EmptyString) = true.
Proof.
  unfold well_formed_term. intros H.
  apply andb_true_iff in H as [H He]. apply andb_true_iff in H as [Hp H].
  apply negb_true_iff, String.eqb_neq in Hp.
  assert (D : forall_chars dot_ok (p ++ String c EmptyString) = true).
  { revert H. apply forall_chars_impl. intros a Ha. now apply andb_true_iff in Ha. }
  assert (B : forall_chars not_bar (p ++ String c EmptyString) = true).
  { revert H. apply forall_chars_impl. intros a Ha. now apply andb_true_iff in Ha. }
  pose proof D as D'. rewrite forall_chars_app in D'. apply andb_true_iff in D' as [D1 D2].
  cbn in D2. rewrite andb_true_r in D2. auto 10.
Qed.








Lemma decode_scalar_random self p c :
  well_formed_term p c = true ->
  endswith (p ++ String c EmptyString) "_sd" = false ->
  _prettify_name self ("u_" ++ p ++ String c EmptyString) =
  (term <- dict_getitem (terms (model self)) (p ++ String c EmptyString) ;;
   Raise TypeError).
Proof.
  intros W Hsd. apply well_formed_term_inv in W as (Hne & Hp & Hc & He & Hb & Hd).
  unfold _prettify_name. cbn [append].
  rewrite re1_plain by auto. cbn [group Nat.eqb subscriptable Py.bind].
  rewrite re2_needs_bar by assumption.
  rewrite re3_needs_sd by (assumption || now apply no_newline_tail).
  reflexivity.
Qed.

(** C2: a name [u_<t>] that fits no rule of the decoding grammar -- [t] has
    no [|] (no random slope), does not end in [_sd] (no standard deviation)
    and carries no index (no random intercept) -- is not passed through:
    the first pattern matches it, the later ones do not, and the look-up of
    [t] among the terms raises a KeyError; when the model has a term [t],
    the missing index raises a TypeError. *)
Theorem prettify_unruled_name_raises self p c :
  well_formed_term p c = true ->
  endswith (p ++ String c EmptyString) "_sd" = false ->
  _prettify_name self ("u_" ++ p ++ String c EmptyString) =
  match assoc (terms (model self)) (p ++ String c EmptyString) with
  | Some _ => Raise TypeError
  | None => Raise KeyError
  end.
Proof.
  intros W Hsd. rewrite (decode_scalar_random self p c W Hsd).
  unfold dict_getitem. now destruct (assoc _ _).
Qed.

Lemma prettify_unruled_name_raises_witness :
  _prettify_name (Sample.fitted 1) "u_item_sd_log" = Raise KeyError /\
  _prettify_name (Sample.fitted 1) "u_BMI" = Raise TypeError.
Proof.
  split.
  - exact (prettify_unruled_name_raises (Sample.fitted 1) "item_sd_lo" "g"
             eq_refl eq_refl).
  - exact (prettify_unruled_name_raises (Sample.fitted 1) "BM" "I"
             eq_refl eq_refl).
Defined.

(** The name of the specification's example fits no rule either, and is
    not passed through. *)
Example prettify_sd_log_raises :
  _prettify_name (Sample.fitted 1) "u_threecats|site_threecats[0]_sd_log"
  = Raise KeyError.
Proof. reflexivity. Qed.

(** *** Random slopes *)



















(** *** __init__ and _filter_names *)
Lemma strip_prefix_iff p s s' : strip_prefix p s = Some s' <-> s = p ++ s'.
Proof.
  split; [apply strip_prefix_Some|]. intros ->. apply strip_prefix_append.
Qed.












(** *** Summary: rows *)
Lemma label_eqb_eq a b : label_eqb a b = true <-> a = b.
Proof.
  destruct a as [x|], b as [y|]; cbn; try (split; congruence).
  rewrite String.eqb_eq. split; congruence.
Qed.


Lemma label_eqb_neq a b : label_eqb a b = false <-> a <> b.
Proof.
  rewrite <- label_eqb_eq. destruct (label_eqb a b); split; congruence.
Qed.






























(** *** [get_trace] *)


































End DecoderSpec.

(** ** The builder of models.py, as the specification describes it *)

Module ModelsSpec.
Import Models PyFacts.
#[local] Open Scope py_scope.

(** *** Random-effect strings *)

Lemma contains_bar (s : string) : 1 <= count_char "|" s -> contains s "|" = true.
Proof.
  induction s as [|c s IH]; cbn [count_char]; [lia|].
  intros H. cbn [contains]. unfold startswith. cbn [strip_prefix].
  rewrite Ascii.eqb_sym.
  destruct (Ascii.eqb c "|"); cbn; [reflexivity|].
  apply IH. cbn in H. lia.
Qed.

Lemma partition_bar_count (s a b : string) :
  partition_bar s = (a, Some b) -> count_char "|" s = S (count_char "|" b).
Proof.
  revert a. induction s as [|c s IH]; cbn; [discriminate|]. intros a.
  destruct (Ascii.eqb c "|").
  - now intros [= _ ->].
  - destruct (partition_bar s) as [a' b'] eqn:E. intros [= _ ->].
    cbn. now apply (IH a').
Qed.

Lemma parse_random_rejects (spec : string) :
  2 <= count_char "|" spec -> parse_random spec = Raise ValueError.
Proof.
  intros H. unfold parse_random.
  destruct (partition_bar spec) as [a [b|]] eqn:E; [|reflexivity].
  apply partition_bar_count in E. rewrite contains_bar by lia. reflexivity.
Qed.

Lemma parse_random_rejects_plus (spec : string) :
  contains (without_zero (fst (partition_bar spec))) "+" = true ->
  parse_random spec = Raise ValueError.
Proof.
  intros H. unfold parse_random.
  destruct (partition_bar spec) as [a [b|]]; [|reflexivity].
  cbn [fst] in H. rewrite H, orb_true_r. reflexivity.
Qed.

Lemma parse_random_error (spec : string) (e : exn) :
  parse_random spec = Raise e -> e = ValueError.
Proof.
  unfold parse_random. destruct (partition_bar spec) as [a [b|]].
  - destruct (_ || _); [now intros [= <-]|discriminate].
  - now intros [= <-].
Qed.

Lemma random_specs_rejects rto (random : list string) (spec : string) :
  In spec random -> parse_random spec = Raise ValueError ->
  random_specs rto random = Raise ValueError.
Proof.
  intros Hin Hbad. induction random as [|r random IH]; [contradiction|].
  cbn [random_specs]. destruct (parse_random r) as [eg|e] eqn:E; cbn.
  - destruct Hin as [->|Hin]; [congruence|]. now rewrite (IH Hin).
  - now apply parse_random_error in E as ->.
Qed.

(** The strings that the tests build models from are taken. *)
Example parse_random_accepts :
  map parse_random ["0+threecats|subj"; "1|item"; "dummy|item"; "threecats|site"]
  = [Ok ("0+threecats", "subj"); Ok ("1", "item"); Ok ("dummy", "item");
     Ok ("threecats", "site")].
Proof. reflexivity. Qed.

Example parse_random_two_bars : parse_random "1|BP|age_grp" = Raise ValueError.
Proof. reflexivity. Qed.

(** C9: a random-effect string is malformed when it has more than one [|],
    or when the effect before its [|] has a [+] other than that of a
    leading [0+], as [1+BP|age_grp] has: parsing it fails with a ValueError,
    and so does the formula path for any list of random effects that holds
    it; no model, hence no term, comes of it. *)
Theorem malformed_random_effect_rejected encode fto rto (m : Model)
  (fixed : string) (random : list string) (spec : string) :
  In spec random ->
  2 <= count_char "|" spec \/
  contains (without_zero (fst (partition_bar spec))) "+" = true ->
  parse_random spec = Raise ValueError /\
  add_formula encode fto rto m fixed random = Raise ValueError.
Proof.
  intros Hin H.
  assert (P : parse_random spec = Raise ValueError).
  { destruct H; [now apply parse_random_rejects|now apply parse_random_rejects_plus]. }
  split; [assumption|].
  unfold add_formula. now rewrite (random_specs_rejects rto random spec Hin P).
Qed.

Lemma malformed_random_effect_rejected_witness :
  parse_random "1+BP|age_grp" = Raise ValueError /\
  add_formula Sample.the_encode Sample.the_fixed_terms_of Sample.the_random_terms_of
    (new_model Sample.the_table false) "Y ~ x + z" ["x|g"; "1+BP|age_grp"]
  = Raise ValueError.
Proof.
  apply malformed_random_effect_rejected.
  - right. left. reflexivity.
  - right. reflexivity.
Defined.

(** *** Missing values at [build] *)

Lemma height_bound es blk : In blk (all_blocks es) -> length blk <= height es.
Proof.
  unfold height. induction (all_blocks es) as [|b l IH]; cbn; [contradiction|].
  intros [->|H]; [lia|]. specialize (IH H). lia.
Qed.

Lemma nan_rows_nonempty es blk row :
  In blk (all_blocks es) -> In row blk -> existsb PrimFloat.is_nan row = true ->
  nan_rows es <> [].
Proof.
  intros Hb Hr Hn. apply (In_nth _ _ []) in Hr as (i & Hi & E).
  assert (In i (nan_rows es)) as Hin.
  { unfold nan_rows. apply filter_In. split.
    - apply in_seq. pose proof (height_bound es blk Hb). lia.
    - unfold incomplete. apply existsb_exists. exists blk. split; [assumption|].
      now rewrite E. }
  intros E0. now rewrite E0 in Hin.
Qed.

Lemma forallb_grouping_known d bad (ts : list (string * Term)) :
  forallb (fun kt => grouping_known d (snd kt))
          (map (fun kt => (fst kt, complete_rows bad (snd kt))) ts)
  = forallb (fun kt => grouping_known d (snd kt)) ts.
Proof. induction ts as [|[k t] ts IH]; cbn; [reflexivity|]. now rewrite IH. Qed.

(** C8: when the data of a term has a missing value and the model does not
    drop rows silently, [build] fails with a ValueError and gives no model;
    when it drops them silently and exactly three rows have a missing value
    (and the grouping factors are known), [build] succeeds with one warning,
    whose text contains "3 rows". *)
Theorem build_missing_values dp (m : Model) :
  (dropna m = false ->
   (exists kt blk row, In kt (terms m) /\ In blk (blocks (data (snd kt))) /\
                       In row blk /\ existsb PrimFloat.is_nan row = true) ->
   build dp m = ([], Raise ValueError)) /\
  (dropna m = true ->
   length (nan_rows (map data (map snd (terms m)))) = 3 ->
   forallb (fun kt => grouping_known (table m) (snd kt)) (terms m) = true ->
   exists b w, build dp m = ([w], Ok b) /\ contains w "3 rows" = true).
Proof.
  split.
  - intros Hd (kt & blk & row & Hkt & Hblk & Hrow & Hnan).
    assert (nan_rows (map data (map snd (terms m))) <> []) as Hne.
    { apply (nan_rows_nonempty _ blk row); [|assumption..].
      unfold all_blocks. apply in_flat_map. exists (data (snd kt)). split; [|assumption].
      apply in_map, in_map, Hkt. }
    unfold build. destruct (nan_rows _); [congruence|]. now rewrite Hd.
  - intros Hd Hn Hg. unfold build.
    destruct (nan_rows (map data (map snd (terms m)))) as [|i bad] eqn:E; [discriminate|].
    rewrite Hd, Hn. cbn [warn ret mbind app].
    rewrite forallb_grouping_known, Hg.
    eexists _, _. split; [reflexivity|]. reflexivity.
Qed.

Lemma build_missing_values_witness :
  build Sample.the_default_prior (Sample.with_gaps false) = ([], Raise ValueError) /\
  exists b w, build Sample.the_default_prior (Sample.with_gaps true) = ([w], Ok b) /\
              contains w "3 rows" = true.
Proof.
  split.
  - apply (proj1 (build_missing_values Sample.the_default_prior (Sample.with_gaps false)));
      [reflexivity|].
    eexists _, _, [nan].
    split; [left; reflexivity|].
    split; [left; reflexivity|].
    split; [|reflexivity].
    cbn. do 4 right. left. reflexivity.
  - apply (proj2 (build_missing_values Sample.the_default_prior (Sample.with_gaps true)));
      vm_compute; reflexivity.
Defined.

(** *** The two paths hold the same terms *)

Section Paths.
Variable encode : Table -> Effect -> outcome (Encoding * list string).
Variable d : Table.

Lemma tracks_dict_set S T n e enc :
  tracks encode d S T -> encode d e = Ok enc ->
  tracks encode d (dict_set n e S) (dict_set n (term_of (n, e) enc) T).
Proof.
  intros H He. induction H as [|[n1 e1] [k1 t1] S T [Hk Ht] H IH]; cbn.
  - constructor; [|constructor]. cbn. eauto.
  - cbn in Hk. subst k1. destruct (n =? n1).
    + constructor; [|assumption]. cbn. eauto.
    + constructor; [|assumption]. cbn. auto.
Qed.

Lemma add_tracks m sp m' S :
  table m = d -> add encode m sp = Ok m' -> tracks encode d S (terms m) ->
  table m' = d /\ dropna m' = dropna m /\
  tracks encode d (dict_set (fst sp) (snd sp) S) (terms m').
Proof.
  intros Hd H HT. unfold add in H. apply bind_Ok in H as (enc & He & H).
  injection H as <-. cbn. repeat split; [assumption|].
  rewrite Hd in He. destruct sp as [n e]. now apply tracks_dict_set.
Qed.

Lemma add_all_tracks specs : forall m m' S,
  table m = d -> add_all encode m specs = Ok m' -> tracks encode d S (terms m) ->
  table m' = d /\ dropna m' = dropna m /\
  tracks encode d (in_force S specs) (terms m').
Proof.
  induction specs as [|sp specs IH]; intros m m' S Hd H HT; cbn in *.
  - injection H as <-. auto.
  - apply bind_Ok in H as (m1 & H1 & H).
    destruct (add_tracks m sp m1 S Hd H1 HT) as (Hd1 & Hn1 & HT1).
    destruct (IH m1 m' _ Hd1 H HT1) as (? & ? & ?).
    repeat split; [assumption|congruence|assumption].
Qed.

Lemma add_y_terms m n f m' :
  add_y encode m n f = Ok m' ->
  table m' = table m /\ dropna m' = dropna m /\ terms m' = terms m.
Proof.
  unfold add_y. intros H. apply bind_Ok in H as (enc & _ & H). now injection H as <-.
Qed.

Lemma incremental_tracks calls : forall m m' S,
  table m = d -> incremental encode m calls = Ok m' -> tracks encode d S (terms m) ->
  table m' = d /\ dropna m' = dropna m /\
  tracks encode d (fold_left replay calls S) (terms m').
Proof.
  induction calls as [|c calls IH]; intros m m' S Hd H HT;
    cbn [incremental fold_left] in *.
  - injection H as <-. auto.
  - apply bind_Ok in H as (m1 & H1 & H).
    assert (table m1 = d /\ dropna m1 = dropna m /\
            tracks encode d (replay S c) (terms m1)) as (Hd1 & Hn1 & HT1).
    { destruct c; cbn [call spec_of_call replay] in *.
      - apply add_y_terms in H1 as (? & ? & E). rewrite E. repeat split; congruence.
      - now apply add_tracks.
      - now apply add_tracks.
      - injection H1 as <-. cbn. repeat split; [assumption|constructor]. }
    destruct (IH m1 m' _ Hd1 H HT1) as (? & ? & ?).
    repeat split; [assumption|congruence|assumption].
Qed.

Lemma tracks_content S T :
  tracks encode d S T ->
  map content (map snd T) = map (content_of encode d) (map snd S).
Proof.
  induction 1 as [|sp kt S T [_ (enc & He & Ht)] _ IH]; cbn; [reflexivity|].
  rewrite IH. f_equal. unfold content_of. rewrite He, Ht. reflexivity.
Qed.

End Paths.

(** *** [build] does not look at names or order *)

Lemma height_perm es es' : Permutation es es' -> height es = height es'.
Proof.
  intros P. unfold height, all_blocks.
  assert (Q : Permutation (map (@length (list float)) (flat_map blocks es))
                          (map (@length (list float)) (flat_map blocks es'))).
  { apply Permutation_map, Permutation_flat_map, P. }
  induction Q; cbn; lia.
Qed.

Lemma incomplete_perm es es' i :
  Permutation es es' -> incomplete es i = incomplete es' i.
Proof.
  intros P. unfold incomplete, all_blocks.
  assert (Q : Permutation (flat_map blocks es) (flat_map blocks es'))
    by apply Permutation_flat_map, P.
  apply eq_true_iff_eq. rewrite !existsb_exists.
  split; intros (x & Hx & E); exists x; split; try assumption.
  - now apply (Permutation_in _ Q).
  - now apply (Permutation_in _ (Permutation_sym Q)).
Qed.

Lemma nan_rows_perm es es' : Permutation es es' -> nan_rows es = nan_rows es'.
Proof.
  intros P. unfold nan_rows. rewrite (height_perm es es' P).
  apply filter_ext. intros i. now apply incomplete_perm.
Qed.

Lemma data_of_content (ts : list Term) :
  map data ts = map (fun c => snd (fst c)) (map content ts).
Proof. rewrite map_map. reflexivity. Qed.

Lemma build_content dp m w b :
  build dp m = (w, Ok b) ->
  map content (map snd (design b)) =
  map (finish dp (nan_rows (map data (map snd (terms m)))))
      (map content (map snd (terms m))).
Proof.
  unfold build. intros H. apply mbind_Ok in H as (w1 & ts & w2 & H1 & H & _).
  destruct (forallb _ ts); [|discriminate]. injection H as _ <-. cbn [design].
  destruct (nan_rows (map data (map snd (terms m)))) as [|i bad].
  - injection H1 as _ <-. rewrite !map_map. apply map_ext. intros [k t]. reflexivity.
  - destruct (dropna m); [|discriminate].
    apply mbind_Ok in H1 as (? & ? & ? & _ & H1 & _). injection H1 as _ <-.
    rewrite !map_map. apply map_ext. intros [k t]. reflexivity.
Qed.

Lemma fixed_columns_view b :
  fixed_columns b = fixed_view (map content (map snd (design b))).
Proof.
  unfold fixed_columns, fixed_view.
  induction (design b) as [|[k t] l IH]; cbn; [reflexivity|].
  destruct (random t); cbn; now rewrite IH.
Qed.

Lemma random_columns_view b :
  random_columns b = random_view (map content (map snd (design b))).
Proof.
  unfold random_columns, random_view.
  induction (design b) as [|[k t] l IH]; cbn; [reflexivity|].
  destruct (random t); cbn; now rewrite IH.
Qed.

Lemma prior_tuples_view b :
  prior_tuples b = prior_view (map content (map snd (design b))).
Proof. unfold prior_tuples, prior_view. now rewrite !map_map. Qed.

Lemma same_set_perm {A} (l l' : list A) : Permutation l l' -> same_set l l'.
Proof.
  intros P a. split; apply Permutation_in; [assumption|now apply Permutation_sym].
Qed.

Lemma same_set_flat_map_filter {A B} (f : A -> list B) (p : A -> bool) l l' :
  same_set l l' -> same_set (flat_map f (filter p l)) (flat_map f (filter p l')).
Proof.
  intros H b. rewrite !in_flat_map.
  split; intros (a & Ha & Hb); exists a; split; try assumption;
    apply filter_In in Ha as [Ha Hp]; apply filter_In; split; try assumption;
    now apply H.
Qed.

Lemma same_set_map {A B} (f : A -> B) l l' :
  same_set l l' -> same_set (map f l) (map f l').
Proof.
  intros H b. rewrite !in_map_iff.
  split; intros (a & Ha & Hb); exists a; split; try assumption; now apply H.
Qed.

(** C1: over the same data, a model made by the formula path and a model
    made call by call that specify the same effects (up to their order and
    the names of their terms) have, once built, the same set of fixed-effect
    columns, the same set of random-effect columns and the same set of
    default priors by structural role. *)
Theorem path_equivalence encode dp fto rto (d : Table) (drop : bool)
  (fixed : string) (random : list string) (calls : list Call)
  (m0 m1 : Model) (effects : list Effect) w0 b0 w1 b1 :
  add_formula encode fto rto (new_model d drop) fixed random = Ok m0 ->
  incremental encode (new_model d drop) calls = Ok m1 ->
  effects_of_formula fto rto fixed random = Ok effects ->
  Permutation effects (effects_of_calls calls) ->
  build dp m0 = (w0, Ok b0) ->
  build dp m1 = (w1, Ok b1) ->
  same_set (fixed_columns b0) (fixed_columns b1) /\
  same_set (random_columns b0) (random_columns b1) /\
  same_set (prior_tuples b0) (prior_tuples b1).
Proof.
  intros H0 H1 He P B0 B1.
  (* the formula path *)
  unfold add_formula in H0. apply bind_Ok in H0 as (rs & Hrs & H0).
  apply bind_Ok in H0 as (my & Hy & H0).
  assert (table my = d /\ terms my = []) as [Hdy Hty].
  { destruct (fst (fto fixed)).
    - apply add_y_terms in Hy as (? & ? & ?). cbn in *. split; congruence.
    - now injection Hy as <-. }
  assert (tracks encode d [] (terms my)) as T0 by (rewrite Hty; constructor).
  apply (add_all_tracks encode d _ _ _ _ Hdy H0) in T0 as (_ & _ & T0).
  unfold effects_of_formula in He. rewrite Hrs in He. cbn in He. injection He as <-.
  (* the incremental path *)
  assert (tracks encode d [] (terms (new_model d drop))) as T1 by constructor.
  apply (incremental_tracks encode d calls (new_model d drop) m1 [] eq_refl H1)
    in T1 as (_ & _ & T1).
  (* both hold the same contents, up to order *)
  apply (tracks_content encode d) in T0, T1.
  assert (Permutation (map content (map snd (terms m0)))
                      (map content (map snd (terms m1)))) as PC.
  { rewrite T0, T1. apply Permutation_map. exact P. }
  apply build_content in B0, B1.
  rewrite !data_of_content in B0, B1.
  rewrite (nan_rows_perm _ _ (Permutation_map _ PC)) in B0.
  assert (Permutation (map content (map snd (design b0)))
                      (map content (map snd (design b1)))) as PB.
  { rewrite B0, B1. apply Permutation_map. exact PC. }
  apply same_set_perm in PB.
  rewrite !fixed_columns_view, !random_columns_view, !prior_tuples_view.
  split; [|split].
  - now apply same_set_flat_map_filter.
  - now apply same_set_flat_map_filter.
  - now apply same_set_map.
Qed.

Lemma path_equivalence_witness :
  same_set (fixed_columns (Sample.built Sample.by_formula))
           (fixed_columns (Sample.built Sample.by_calls)) /\
  same_set (random_columns (Sample.built Sample.by_formula))
           (random_columns (Sample.built Sample.by_calls)) /\
  same_set (prior_tuples (Sample.built Sample.by_formula))
           (prior_tuples (Sample.built Sample.by_calls)).
Proof.
  apply (path_equivalence Sample.the_encode Sample.the_default_prior
           Sample.the_fixed_terms_of Sample.the_random_terms_of
           Sample.the_table false "Y ~ x + z" ["x|g"] Sample.the_calls
           (Sample.or_empty Sample.by_formula) (Sample.or_empty Sample.by_calls)
           [Intercept;
            Predictor "x" None false false false;
            Predictor "z" None false false false;
            Predictor "x" (Some "g") true false false]
           [] (Sample.built Sample.by_formula) [] (Sample.built Sample.by_calls)).
  - vm_compute. reflexivity.
  - vm_compute. reflexivity.
  - vm_compute. reflexivity.
  - exact (Permutation_rev
             [Intercept;
              Predictor "x" None false false false;
              Predictor "z" None false false false;
              Predictor "x" (Some "g") true false false]).
  - vm_compute. reflexivity.
  - vm_compute. reflexivity.
Defined.

End ModelsSpec.
